(** * The CMake cache model of [build_swift.wrappers.cmake]

    A shallow embedding of the value classifier, the value wrappers, the
    cache entry and the cache container of
    [utils/build_swift/build_swift/wrappers/cmake.py], followed by the
    properties its specification states about them.  The pure parts of
    [utils/preset_utils.py] and of
    [utils/swift_build_support/swift_build_support/products/cmake.py] are
    embedded as well: what they compute from the presets, the namespaces
    and the lines of the version file they are given.

    Conventions of the embedding.
    - Python 3 semantics ([six.text_type] is [str], [six.string_types] is
      [(str,)]).
    - Text is a [string] of ASCII characters; [upper] only moves [a-z].
      Code points above 127 are outside the model.
    - A float is carried by the text Python prints for it (its [repr]);
      the binary64 arithmetic behind it is not modelled.
    - [int] refuses a text of more than 4300 digits, as the interpreter
      does by default.  The interpreter refuses to print an integer of
      more than 4300 digits too; [text_type] and [repr] give the text of
      the values that are printed ([Py.str_defined]), and a statement
      about the text of any value is a statement about those.
    - Values other than [PyObject] have no identity: [==] on them is by
      value.  What Python decides by identity before it asks [==] (a
      [nan] found in the same list twice) and the comparison of an
      integer with a float printed in exponent form are outside the
      model.
    - The keys of the cache are text: [get] and [unset] take a text name,
      while [set] takes any value as the name, since the entry constructor
      checks it.
    - A regular expression of the sources is matched by a function written
      for that pattern; the classes [Version] and [Preset] come from modules
      outside these files, so a version is the text handed to [Version] and
      a preset is its name and its options.
    - Exceptions are values: a computation that may raise returns a
      [result]; a method that mutates the cache is a function from the
      cache before to the outcome paired with the cache after. *)

From Stdlib Require Import ZArith List Bool Ascii String Lia.
From Stdlib Require Import Decimal DecimalPos DecimalString.
Import ListNotations.

Local Open Scope string_scope.
Local Open Scope Z_scope.

Set Implicit Arguments.
Set Warnings "-register-all".

(* ====================================================================== *)
(** * Python values *)

(** [CMakeValueType]: an object with the single slot [name]. *)
Record CMakeValueType : Type := mkValueType { vt_name : string }.

(** The Python values the cache API is called with.  [PyObject] stands for
    an object of any other class that does not define [__eq__], so that it
    equals itself only (a function, a plain instance): it has an identity,
    the text [str] gives for it and the text [repr] gives for it.  Where
    only the text of a value counts, it stands for any other object. *)
Inductive pyval : Type :=
| PyNone
| PyBool (b : bool)
| PyInt (n : Z)
| PyFloat (repr : string)
| PyStr (s : string)
| PyList (items : list pyval)
| PyTuple (items : list pyval)
| PyValueType (t : CMakeValueType)
| PyObject (id : nat) (text : string) (repr : string).

(** The exceptions the module raises.  Every [ValueError] of the source is
    told apart by its raise site; [KeyError] comes from [OrderedDict.pop]. *)
Inductive value_error : Type :=
| Invalid_bool_value (value : pyval)     (* "Invalid bool value: {}" *)
| Invalid_list_value (value : pyval)     (* "Invalid list value: {}" *)
| Invalid_name_type (name : pyval)       (* "Invalid name type {}" *)
| Empty_name                             (* "CMake variable names cannot be empty" *)
| Unknown_value_type (name : string).    (* 'Unknown value type "{}"' *)

Inductive exn : Type :=
| ValueError (why : value_error)
| KeyError (key : string).

Inductive result (A : Type) : Type :=
| Ok (a : A)
| Raise (e : exn).

Arguments Ok {A} a.
Arguments Raise {A} e.

Definition bind {A B : Type} (r : result A) (k : A -> result B) : result B :=
  match r with
  | Ok a => k a
  | Raise e => Raise e
  end.

Declare Scope result_scope.
Delimit Scope result_scope with result.
Notation "x <- r ;; k" := (bind r (fun x => k))
  (at level 61, r at next level, right associativity) : result_scope.
Local Open Scope result_scope.

(** The names the specification gives to the failures. *)
Definition InvalidName (e : exn) : Prop :=
  (exists v, e = ValueError (Invalid_name_type v)) \/ e = ValueError Empty_name.
Definition InvalidBoolean (e : exn) : Prop :=
  exists v, e = ValueError (Invalid_bool_value v).
Definition InvalidListValue (e : exn) : Prop :=
  exists v, e = ValueError (Invalid_list_value v).
Definition UnknownType (e : exn) : Prop :=
  exists n, e = ValueError (Unknown_value_type n).
Definition NotFound (e : exn) : Prop :=
  exists k, e = KeyError k.

(* ====================================================================== *)
(** * The Python built-ins the module uses *)

Module Py.

Definition tab : ascii := ascii_of_nat 9.
Definition newline : ascii := ascii_of_nat 10.
Definition carriage_return : ascii := ascii_of_nat 13.
Definition dquote : ascii := ascii_of_nat 34.
Definition squote : ascii := ascii_of_nat 39.
Definition backslash : ascii := ascii_of_nat 92.

Definition code (c : ascii) : Z := Z.of_nat (nat_of_ascii c).

(** [str.upper], ASCII letters. *)
Definition upper_char (c : ascii) : ascii :=
  if (97 <=? code c) && (code c <=? 122)
  then ascii_of_nat (nat_of_ascii c - 32)
  else c.

Fixpoint upper (s : string) : string :=
  match s with
  | EmptyString => EmptyString
  | String c s' => String (upper_char c) (upper s')
  end.

(** [str.endswith]: some tail of [s] is [suffix]. *)
Fixpoint endswith (s suffix : string) : bool :=
  if String.eqb s suffix then true
  else match s with
       | EmptyString => false
       | String _ s' => endswith s' suffix
       end.

(** [x in xs] for a list of strings. *)
Definition contains (xs : list string) (x : string) : bool :=
  existsb (String.eqb x) xs.

Fixpoint all_chars (p : ascii -> bool) (s : string) : bool :=
  match s with
  | EmptyString => true
  | String c s' => p c && all_chars p s'
  end.

Fixpoint any_char (p : ascii -> bool) (s : string) : bool :=
  match s with
  | EmptyString => false
  | String c s' => p c || any_char p s'
  end.

(** ** [int(text)], base ten

    Blanks are dropped at both ends, one sign may come first, then
    decimal digits follow, where single underscores may separate digits;
    a text of more than 4300 digits is refused.  [None] is [ValueError]. *)

Definition is_space (c : ascii) : bool :=
  ((9 <=? code c) && (code c <=? 13)) || (code c =? 32).

Definition digit_of (c : ascii) : option Z :=
  if (48 <=? code c) && (code c <=? 57) then Some (code c - 48) else None.

Fixpoint lstrip (s : string) : string :=
  match s with
  | EmptyString => EmptyString
  | String c s' => if is_space c then lstrip s' else s
  end.

Fixpoint rstrip (s : string) : string :=
  match s with
  | EmptyString => EmptyString
  | String c s' =>
      match rstrip s' with
      | EmptyString => if is_space c then EmptyString else String c EmptyString
      | r => String c r
      end
  end.

Inductive seen : Type := Nothing | Digit | Underscore.

Fixpoint int_digits (s : string) (acc : Z) (last : seen) : option Z :=
  match s with
  | EmptyString =>
      match last with
      | Digit => Some acc
      | _ => None
      end
  | String c s' =>
      match digit_of c with
      | Some d => int_digits s' (10 * acc + d) Digit
      | None =>
          if Ascii.eqb c "_" then
            match last with
            | Digit => int_digits s' acc Underscore
            | _ => None
            end
          else None
      end
  end.

(** The interpreter refuses to convert a text of more than this many
    digits to an integer ([sys.int_info.default_max_str_digits]). *)
Definition int_max_str_digits : Z := 4300.

Fixpoint count_digits (s : string) : Z :=
  match s with
  | EmptyString => 0
  | String c s' =>
      match digit_of c with
      | Some _ => 1 + count_digits s'
      | None => count_digits s'
      end
  end.

Definition int (s : string) : option Z :=
  if int_max_str_digits <? count_digits s then None
  else
    match rstrip (lstrip s) with
    | EmptyString => None
    | String c r =>
        if Ascii.eqb c "+" then int_digits r 0 Nothing
        else if Ascii.eqb c "-" then option_map Z.opp (int_digits r 0 Nothing)
        else int_digits (String c r) 0 Nothing
    end.

(** ** [str] and [repr] *)

Definition str_of_int (n : Z) : string := NilZero.string_of_int (Z.to_int n).

Definition str_of_bool (b : bool) : string := if b then "True" else "False".

Definition hex_digit (n : nat) : ascii :=
  nth n (list_ascii_of_string "0123456789abcdef") "0"%char.

(** [repr] of a string: single quotes unless the text holds a single
    quote and no double quote; the quote and the backslash are escaped,
    control characters are written as escapes. *)
Definition repr_char (quote c : ascii) : string :=
  if Ascii.eqb c quote || Ascii.eqb c backslash then String backslash (String c "")
  else if Ascii.eqb c tab then String backslash "t"
  else if Ascii.eqb c newline then String backslash "n"
  else if Ascii.eqb c carriage_return then String backslash "r"
  else if (code c <? 32) || (127 <=? code c) then
    String backslash
      (String "x" (String (hex_digit (nat_of_ascii c / 16))
                     (String (hex_digit (nat_of_ascii c mod 16)) "")))
  else String c "".

Fixpoint repr_chars (quote : ascii) (s : string) : string :=
  match s with
  | EmptyString => EmptyString
  | String c s' => repr_char quote c ++ repr_chars quote s'
  end.

Definition repr_str (s : string) : string :=
  let quote :=
    if any_char (Ascii.eqb squote) s && negb (any_char (Ascii.eqb dquote) s)
    then dquote else squote in
  String quote (repr_chars quote s ++ String quote "").

Fixpoint repr (v : pyval) : string :=
  match v with
  | PyNone => "None"
  | PyBool b => str_of_bool b
  | PyInt n => str_of_int n
  | PyFloat r => r
  | PyStr s => repr_str s
  | PyList items => "[" ++ String.concat ", " (map repr items) ++ "]"
  | PyTuple items =>
      match items with
      | [x] => "(" ++ repr x ++ ",)"
      | _ => "(" ++ String.concat ", " (map repr items) ++ ")"
      end
  | PyValueType t => "CMakeValueType." ++ vt_name t
  | PyObject _ _ r => r
  end.

(** [six.text_type(value)], that is [str(value)].  [CMakeValueType]
    defines [__str__] as its name. *)
Definition text_type (v : pyval) : string :=
  match v with
  | PyStr s => s
  | PyValueType t => vt_name t
  | PyObject _ text _ => text
  | _ => repr v
  end.

(** The interpreter refuses to print an integer of more than
    [int_max_str_digits] digits: [str] and [repr] of it, and of a list or
    a tuple that holds it, raise.  [str_defined v] says that [str] and
    [repr] return the text of [v]: no integer in [v] is that long. *)
Fixpoint str_defined (v : pyval) : bool :=
  match v with
  | PyInt n => Z.abs n <? 10 ^ int_max_str_digits
  | PyList items => forallb str_defined items
  | PyTuple items => forallb str_defined items
  | _ => true
  end.

(** ** [==] on values

    Numbers compare by value across [bool], [int] and [float]; a float
    whose text is [<digits>.0] is that integer, other floats compare by
    their text, and [nan] equals nothing.  Containers compare element by
    element, [CMakeValueType] by name ([__eq__] of the class), any other
    object by identity. *)

Definition float_int (r : string) : option Z :=
  let body := fun (digits : string) =>
    match index 0 "." digits with
    | Some i =>
        if String.eqb (substring i (String.length digits - i) digits) ".0"
        then int_digits (substring 0 i digits) 0 Nothing
        else None
    | None => None
    end in
  match r with
  | String "-" r' => option_map Z.opp (body r')
  | _ => body r
  end.

Definition number (v : pyval) : option Z :=
  match v with
  | PyBool b => Some (if b then 1 else 0)
  | PyInt n => Some n
  | PyFloat r => float_int r
  | _ => None
  end.

Fixpoint list_eq {A : Type} (f : A -> A -> bool) (xs ys : list A) : bool :=
  match xs, ys with
  | [], [] => true
  | x :: xs', y :: ys' => f x y && list_eq f xs' ys'
  | _, _ => false
  end.

Definition float_eq (r s : string) : bool :=
  match float_int r, float_int s with
  | Some m, Some n => m =? n
  | None, None => String.eqb r s && negb (String.eqb r "nan")
  | _, _ => false
  end.

Definition number_eq (a b : pyval) : bool :=
  match number a, number b with
  | Some m, Some n => m =? n
  | _, _ => false
  end.

Fixpoint eq (a b : pyval) : bool :=
  match a, b with
  | PyNone, PyNone => true
  | PyStr s, PyStr t => String.eqb s t
  | PyList xs, PyList ys => list_eq eq xs ys
  | PyTuple xs, PyTuple ys => list_eq eq xs ys
  | PyValueType s, PyValueType t => String.eqb (vt_name s) (vt_name t)
  | PyObject i _ _, PyObject j _ _ => Nat.eqb i j
  | PyFloat r, PyFloat s => float_eq r s
  | (PyBool _ | PyInt _), (PyBool _ | PyInt _ | PyFloat _)
  | PyFloat _, (PyBool _ | PyInt _) => number_eq a b
  | _, _ => false
  end.

Definition isinstance_list (v : pyval) : bool :=
  match v with PyList _ => true | _ => false end.
Definition isinstance_bool (v : pyval) : bool :=
  match v with PyBool _ => true | _ => false end.
Definition isinstance_str (v : pyval) : bool :=
  match v with PyStr _ => true | _ => false end.

End Py.

(* ====================================================================== *)
(** * Constants and helpers of [cmake.py] *)

Definition _TRUTHY_VALUES : list string := ["TRUE"; "ON"; "YES"; "Y"].
Definition _FALSEY_VALUES : list string :=
  ["0"; "FALSE"; "OFF"; "NO"; "N"; "IGNORE"; "NOTFOUND"].
Definition _NOTFOUND_SUFFIX : string := "-NOTFOUND".

Definition _is_truthy (value : pyval) : bool :=
  let value := Py.upper (Py.text_type value) in
  if Py.contains _TRUTHY_VALUES value then true
  else match Py.int value with
       | Some n => negb (n =? 0)
       | None => false
       end.

Definition _is_falsey (value : pyval) : bool :=
  let value := Py.upper (Py.text_type value) in
  String.eqb value ""
  || Py.contains _FALSEY_VALUES value
  || Py.endswith value _NOTFOUND_SUFFIX.

Definition _cmake_bool (value : pyval) : result bool :=
  if _is_truthy value then Ok true
  else if _is_falsey value then Ok false
  else Raise (ValueError (Invalid_bool_value value)).

(* ====================================================================== *)
(** * Value wrappers *)

(** The three wrapper classes; [_BoolWrapper] and [_ListWrapper] derive
    from [_ValueWrapper]. *)
Inductive wrapper_class : Type := _ValueWrapper | _BoolWrapper | _ListWrapper.

(** A wrapper object.  Each constructor carries what [__init__] of its
    class stores in the slot [value]: anything, the Python bool returned by
    [_cmake_bool], a list. *)
Inductive wrapper : Type :=
| ValueWrapper (value : pyval)
| BoolWrapper (value : bool)
| ListWrapper (value : list pyval).

Definition type (w : wrapper) : wrapper_class :=
  match w with
  | ValueWrapper _ => _ValueWrapper
  | BoolWrapper _ => _BoolWrapper
  | ListWrapper _ => _ListWrapper
  end.

(** The slot [value]. *)
Definition value (w : wrapper) : pyval :=
  match w with
  | ValueWrapper v => v
  | BoolWrapper b => PyBool b
  | ListWrapper items => PyList items
  end.

Definition issubclass (c d : wrapper_class) : bool :=
  match d, c with
  | _ValueWrapper, _ => true
  | _BoolWrapper, _BoolWrapper => true
  | _ListWrapper, _ListWrapper => true
  | _, _ => false
  end.

Definition isinstance (w : wrapper) (c : wrapper_class) : bool :=
  issubclass (type w) c.

Definition same_class (c d : wrapper_class) : bool :=
  issubclass c d && issubclass d c.

Definition ValueWrapper_init (value : pyval) : result wrapper :=
  Ok (ValueWrapper value).

Definition BoolWrapper_init (value : pyval) : result wrapper :=
  b <- _cmake_bool value ;;
  Ok (BoolWrapper b).

Definition ListWrapper_init (value : pyval) : result wrapper :=
  match value with
  | PyList items => Ok (ListWrapper items)
  | _ => Raise (ValueError (Invalid_list_value value))
  end.

(** [_ValueWrapper.__eq__], inherited by both subclasses; [None] is
    [NotImplemented]. *)
Definition wrapper__eq__ (self other : wrapper) : option bool :=
  if negb (isinstance other (type self)) then None
  else Some (Py.eq (value self) (value other)).

(** [self == other] as Python evaluates it on two wrapper objects: when
    the class of the right operand is a proper subclass of the class of the
    left one its [__eq__] is asked first, otherwise the left one's is; an
    operand that answers [NotImplemented] passes the question to the other;
    when both do, the objects are compared by identity, and two wrappers
    of unrelated classes are two objects. *)
Definition wrapper_eq (self other : wrapper) : bool :=
  let first_right :=
    negb (same_class (type self) (type other))
    && issubclass (type other) (type self) in
  let '(a, b) := if first_right then (other, self) else (self, other) in
  match wrapper__eq__ a b with
  | Some r => r
  | None =>
      match wrapper__eq__ b a with
      | Some r => r
      | None => false
      end
  end.

(** [__ne__]: [not self == other]. *)
Definition wrapper_ne (self other : wrapper) : bool :=
  negb (wrapper_eq self other).

(** [__str__] of the three classes. *)
Definition wrapper_str (w : wrapper) : string :=
  match w with
  | ValueWrapper v => Py.text_type v
  | BoolWrapper b => Py.upper (Py.text_type (PyBool b))
  | ListWrapper items => String.concat ";" (map Py.text_type items)
  end.

(* ====================================================================== *)
(** * CMake value types *)

Definition ValueType_eq (a b : CMakeValueType) : bool :=
  String.eqb (vt_name a) (vt_name b).

(** The class [CMakeValueType] as far as [_register] changes it: the list
    [__members__] and the class attributes that [setattr] has bound, the
    last binding of a name first.  The attributes of the class body (the
    methods, the slot [name]) are not in this record; the five names
    registered are none of them. *)
Record ValueType_class : Type := mkClass {
  members : list CMakeValueType;
  attributes : list (string * CMakeValueType)
}.

Definition setattr (cls : ValueType_class) (name : string)
  (member : CMakeValueType) : ValueType_class :=
  mkClass (members cls) ((name, member) :: attributes cls).

Definition getattr (cls : ValueType_class) (name : string)
  : option CMakeValueType :=
  option_map snd (find (fun a => String.eqb (fst a) name) (attributes cls)).

(** [CMakeValueType._register]. *)
Definition _register (name : string) (cls : ValueType_class) : ValueType_class :=
  let member := mkValueType name in
  if existsb (ValueType_eq member) (members cls) then cls
  else
    let cls := mkClass (members cls ++ [member]) (attributes cls) in
    setattr cls name member.

(** The class after the five registrations of the module. *)
Definition CMakeValueType_class : ValueType_class :=
  _register "INTERNAL"
    (_register "STRING"
       (_register "PATH"
          (_register "FILEPATH"
             (_register "BOOL" (mkClass [] []))))).

Definition __members__ : list CMakeValueType := members CMakeValueType_class.

(** [CMakeValueType.BOOL] and the other four attributes. *)
Definition BOOL : CMakeValueType := mkValueType "BOOL".
Definition FILEPATH : CMakeValueType := mkValueType "FILEPATH".
Definition PATH : CMakeValueType := mkValueType "PATH".
Definition STRING : CMakeValueType := mkValueType "STRING".
Definition INTERNAL : CMakeValueType := mkValueType "INTERNAL".

Definition from_name (name : string) : result CMakeValueType :=
  match find (fun member => String.eqb (vt_name member) name) __members__ with
  | Some member => Ok member
  | None => Raise (ValueError (Unknown_value_type name))
  end.

(* ====================================================================== *)
(** * Cache entries *)

Record CMakeCacheEntry : Type := mkEntry {
  _name : string;
  _value_wrapper : wrapper;
  _value_type : pyval
}.

(** [CMakeCacheEntry.__init__]. *)
Definition CMakeCacheEntry_init (name value value_type : pyval)
  : result CMakeCacheEntry :=
  match name with
  | PyStr text =>
      if (String.length text <? 1)%nat then Raise (ValueError Empty_name)
      else
        wrapped <-
          (if Py.isinstance_list value then
             w <- ListWrapper_init value ;;
             Ok (w, PyValueType STRING)
           else if Py.isinstance_bool value
                   || Py.eq value_type (PyValueType BOOL) then
             w <- BoolWrapper_init value ;;
             Ok (w, PyValueType BOOL)
           else
             w <- ValueWrapper_init value ;;
             Ok (w, value_type)) ;;
        let '(w, value_type) := wrapped in
        value_type <-
          (match value_type with
           | PyStr type_name =>
               member <- from_name type_name ;;
               Ok (PyValueType member)
           | _ => Ok value_type
           end) ;;
        Ok (mkEntry text w value_type)
  | _ => Raise (ValueError (Invalid_name_type name))
  end.

(** The properties [name], [value], [value_type]. *)
Definition entry_name (e : CMakeCacheEntry) : string := _name e.
Definition entry_value (e : CMakeCacheEntry) : pyval := value (_value_wrapper e).
Definition entry_value_type (e : CMakeCacheEntry) : pyval := _value_type e.

(** [CMakeCacheEntry.__str__]. *)
Definition entry_str (e : CMakeCacheEntry) : string :=
  match entry_value_type e with
  | PyNone => _name e ++ "=" ++ wrapper_str (_value_wrapper e)
  | t => _name e ++ ":" ++ Py.text_type t ++ "=" ++ wrapper_str (_value_wrapper e)
  end.

(* ====================================================================== *)
(** * [collections.OrderedDict] with text keys *)

Module OrderedDict.
Section Values.
Variable V : Type.

(** The items in iteration order; no key occurs twice. *)
Definition t : Type := list (string * V).

Definition empty : t := [].
Definition keys (d : t) : list string := map fst d.
Definition values (d : t) : list V := map snd d.

Fixpoint lookup (d : t) (key : string) : option V :=
  match d with
  | [] => None
  | (k, v) :: d' => if String.eqb k key then Some v else lookup d' key
  end.

Definition contains (d : t) (key : string) : bool :=
  match lookup d key with Some _ => true | None => false end.

(** [d.get(key, default)]. *)
Definition get {D : Type} (d : t) (key : string) (default : D) : V + D :=
  match lookup d key with
  | Some v => inl v
  | None => inr default
  end.

(** [d[key] = v]: a key that is there keeps its place, a new key goes
    to the end. *)
Fixpoint setitem (d : t) (key : string) (v : V) : t :=
  match d with
  | [] => [(key, v)]
  | (k, v') :: d' =>
      if String.eqb k key then (k, v) :: d'
      else (k, v') :: setitem d' key v
  end.

Fixpoint remove (d : t) (key : string) : t :=
  match d with
  | [] => []
  | (k, v) :: d' =>
      if String.eqb k key then d' else (k, v) :: remove d' key
  end.

(** [d.pop(key)]: the value and the dict without the key, or
    [KeyError] and the dict as it was. *)
Definition pop (d : t) (key : string) : result V * t :=
  match lookup d key with
  | Some v => (Ok v, remove d key)
  | None => (Raise (KeyError key), d)
  end.

(** [d.update(other)]: [d[k] = v] for every item of [other], in
    [other]'s order. *)
Definition update (d other : t) : t :=
  fold_left (fun acc item => setitem acc (fst item) (snd item)) other d.

Definition clear (d : t) : t := [].
End Values.
End OrderedDict.

(* ====================================================================== *)
(** * The cache *)

Record CMakeCache : Type := mkCache {
  _entries : OrderedDict.t CMakeCacheEntry
}.

(** A method that may raise and may change the cache. *)
Definition method (A : Type) : Type := CMakeCache -> result A * CMakeCache.

Definition then_ {A B : Type} (m : method A) (k : A -> method B) : method B :=
  fun self =>
    match m self with
    | (Ok a, self') => k a self'
    | (Raise e, self') => (Raise e, self')
    end.

Notation "m >> k" := (then_ m (fun _ => k))
  (at level 62, right associativity).

(** [CMakeCache()]. *)
Definition CMakeCache_init : CMakeCache := mkCache (OrderedDict.empty _).

Definition cache_len (self : CMakeCache) : nat := List.length (_entries self).

Definition cache_iter (self : CMakeCache) : list CMakeCacheEntry :=
  OrderedDict.values (_entries self).

Definition cache_contains (self : CMakeCache) (name : string) : bool :=
  OrderedDict.contains (_entries self) name.

(** The names in iteration order. *)
Definition names (self : CMakeCache) : list string :=
  OrderedDict.keys (_entries self).

(** [__iadd__]. *)
Definition cache_iadd (self other : CMakeCache) : CMakeCache :=
  mkCache (OrderedDict.update (_entries self) (_entries other)).

(** [__add__]. *)
Definition cache_add (self other : CMakeCache) : CMakeCache :=
  let new_cache := CMakeCache_init in
  let new_cache := cache_iadd new_cache self in
  let new_cache := cache_iadd new_cache other in
  new_cache.

(** The properties [entries] and [args]. *)
Definition entries (self : CMakeCache) : list CMakeCacheEntry :=
  OrderedDict.values (_entries self).

Definition args (self : CMakeCache) : list string :=
  map (fun entry => "-D" ++ entry_str entry) (entries self).

(** [get]: [self._entries.get(name, default)]. *)
Definition get (name : string) (default : pyval) (self : CMakeCache)
  : CMakeCacheEntry + pyval :=
  OrderedDict.get (_entries self) name default.

(** [set]: the entry is built first; the item is stored under [name],
    which is the entry's name once the constructor has returned. *)
Definition set (name value value_type : pyval) : method unit :=
  fun self =>
    match CMakeCacheEntry_init name value value_type with
    | Ok entry =>
        (Ok tt, mkCache (OrderedDict.setitem (_entries self) (_name entry) entry))
    | Raise e => (Raise e, self)
    end.

(** [unset]: [self._entries.pop(name)]; the popped entry is dropped. *)
Definition unset (name : string) : method unit :=
  fun self =>
    match OrderedDict.pop (_entries self) name with
    | (Ok _, d) => (Ok tt, mkCache d)
    | (Raise e, d) => (Raise e, mkCache d)
    end.

(** [clear]. *)
Definition clear : method unit :=
  fun self => (Ok tt, mkCache (OrderedDict.clear (_entries self))).

(* ====================================================================== *)
(** * Vocabulary of the statements *)

(** The characters [int] accepts anywhere in its argument. *)
Definition int_char (c : ascii) : bool :=
  Py.is_space c
  || match Py.digit_of c with Some _ => true | None => false end
  || Ascii.eqb c "_" || Ascii.eqb c "+" || Ascii.eqb c "-".

(** The words of the specification of the classifier, written out without
    the tables and the parser of the code. *)

(** A blank: space, tab, line feed, vertical tab, form feed, carriage
    return. *)
Definition is_blank (c : ascii) : bool :=
  existsb (Ascii.eqb c)
    [" "%char; ascii_of_nat 9; ascii_of_nat 10; ascii_of_nat 11;
     ascii_of_nat 12; ascii_of_nat 13].

(** A decimal digit is worth its place in the text of the ten digits. *)
Definition digit_value (c : ascii) : option Z :=
  option_map Z.of_nat (String.index 0 (String c EmptyString) "0123456789").

(** A run of decimal digits in which one underscore may stand between two
    digits, and the digits it holds. *)
Inductive digit_run : string -> list Z -> Prop :=
| run_last (c : ascii) (d : Z) :
    digit_value c = Some d -> digit_run (String c EmptyString) [d]
| run_next (c : ascii) (d : Z) (s : string) (ds : list Z) :
    digit_value c = Some d -> digit_run s ds -> digit_run (String c s) (d :: ds)
| run_under (c : ascii) (d : Z) (s : string) (ds : list Z) :
    digit_value c = Some d -> digit_run s ds ->
    digit_run (String c (String "_" s)) (d :: ds).

(** The number a list of digits writes after the digits read so far. *)
Definition number_from (acc : Z) (ds : list Z) : Z :=
  fold_left (fun acc d => 10 * acc + d) ds acc.

Definition number_of (ds : list Z) : Z := number_from 0 ds.

(** A text parses as the integer [n]: blanks, a sign or none, a run of at
    most 4300 digits, blanks. *)
Definition int_text (text : string) (n : Z) : Prop :=
  exists (left sign body right : string) (ds : list Z),
    text = left ++ sign ++ body ++ right
    /\ Py.all_chars is_blank left = true
    /\ Py.all_chars is_blank right = true
    /\ digit_run body ds
    /\ Z.of_nat (List.length ds) <= 4300
    /\ ((sign = "" \/ sign = "+") /\ n = number_of ds
        \/ sign = "-" /\ n = - number_of ds).

Definition truthy_text (text : string) : Prop :=
  In text ["TRUE"; "ON"; "YES"; "Y"]
  \/ exists n, int_text text n /\ n <> 0.

Definition falsey_text (text : string) : Prop :=
  text = ""
  \/ In text ["0"; "FALSE"; "OFF"; "NO"; "N"; "IGNORE"; "NOTFOUND"]
  \/ exists prefix, text = prefix ++ "-NOTFOUND".

(** A name written in capital letters only, as the five registered names
    are.  No attribute of the class body has such a name, so that binding
    it with [setattr] hides none of them. *)
Definition constant_name (name : string) : bool :=
  Py.all_chars (fun c => (65 <=? Py.code c) && (Py.code c <=? 90)) name.

(** Step 5 of the constructor: a type given as text is looked up in the
    registry, anything else is kept. *)
Definition resolve_type (value_type : pyval) : result pyval :=
  match value_type with
  | PyStr type_name =>
      member <- from_name type_name ;;
      Ok (PyValueType member)
  | _ => Ok value_type
  end.

(** Two wrapper classes are related when one derives from the other. *)
Definition related (c d : wrapper_class) : bool :=
  issubclass c d || issubclass d c.

(** [name not in xs]. *)
Definition absent (xs : list string) (name : string) : bool :=
  negb (existsb (String.eqb name) xs).

(** The entry stored under a name, if any. *)
Definition entry_of (self : CMakeCache) (name : string) : option CMakeCacheEntry :=
  OrderedDict.lookup (_entries self) name.

(** The state every cache built through the API is in: no name occurs
    twice and every entry is stored under its own name. *)
Definition well_formed (self : CMakeCache) : Prop :=
  NoDup (names self)
  /\ Forall (fun item => _name (snd item) = fst item) (_entries self).

(** [cache.set(name, value)] for a text name and no type. *)
Definition set_ (name : string) (value : pyval) : method unit :=
  set (PyStr name) value PyNone.

(** The cache a sequence of calls leaves, starting from the empty one. *)
Definition after (calls : method unit) : CMakeCache :=
  snd (calls CMakeCache_init).

(* ====================================================================== *)
(** * The rest of [cmake.py] *)

(** [CMakeCache.__getitem__], [__setitem__], [__delitem__]. *)
Definition cache_getitem (key : string) (self : CMakeCache)
  : result CMakeCacheEntry :=
  match OrderedDict.lookup (_entries self) key with
  | Some entry => Ok entry
  | None => Raise (KeyError key)
  end.

Definition cache_setitem (key value : pyval) : method unit :=
  set key value PyNone.

Definition cache_delitem (key : string) : method unit :=
  unset key.

(** More text built-ins: [str.strip] and the pieces the regular
    expressions of the sources are matched with. *)
Module Str.

(** [str.isspace] on an ASCII character. *)
Definition isspace (c : ascii) : bool :=
  Py.is_space c || ((28 <=? Py.code c) && (Py.code c <=? 31)).

Definition isdigit (c : ascii) : bool :=
  (48 <=? Py.code c) && (Py.code c <=? 57).

Fixpoint lstrip (s : string) : string :=
  match s with
  | EmptyString => EmptyString
  | String c s' => if isspace c then lstrip s' else s
  end.

Fixpoint rstrip (s : string) : string :=
  match s with
  | EmptyString => EmptyString
  | String c s' =>
      match rstrip s' with
      | EmptyString => if isspace c then EmptyString else String c EmptyString
      | r => String c r
      end
  end.

Definition strip (s : string) : string := rstrip (lstrip s).

(** The text after a literal prefix, if the text starts with it. *)
Fixpoint after_prefix (prefix s : string) : option string :=
  match prefix, s with
  | EmptyString, _ => Some s
  | String p prefix', String c s' =>
      if Ascii.eqb p c then after_prefix prefix' s' else None
  | String _ _, EmptyString => None
  end.

(** The longest run of characters of a class at the start of a text, and
    what follows it: a greedy [[...]*]. *)
Fixpoint span (p : ascii -> bool) (s : string) : string * string :=
  match s with
  | EmptyString => (EmptyString, EmptyString)
  | String c s' =>
      if p c then let '(run, rest) := span p s' in (String c run, rest)
      else (EmptyString, s)
  end.

Definition nl : string := String Py.newline EmptyString.

End Str.

(** [_VERSION_PATTERN.match(text)], the group [version]: the pattern is
    [^cmake version (?P<version>[0-9.]+)$] with [re.MULTILINE], matched at
    the start of the text; [$] holds at the end of the text and before a
    newline. *)
Definition version_char (c : ascii) : bool :=
  Str.isdigit c || Ascii.eqb c ".".

Definition _VERSION_PATTERN_match (text : string) : option string :=
  match Str.after_prefix "cmake version " text with
  | None => None
  | Some rest =>
      let '(version, tail) := Str.span version_char rest in
      match version, tail with
      | EmptyString, _ => None
      | _, EmptyString => Some version
      | _, String c _ => if Ascii.eqb c Py.newline then Some version else None
      end
  end.

(** [CMakeWrapper.version], as a function of the text [cmake --version]
    printed: the text handed to [Version], or [None]. *)
Definition version (output : string) : option string :=
  _VERSION_PATTERN_match (Str.rstrip output).

(* ====================================================================== *)
(** * [swift_build_support/products/cmake.py] *)

(** The three patterns [^set\(CMake_VERSION_<KEY> (?P<...>\d+)\)$] matched
    at the start of a line, the group: [$] holds at the end of the text and
    before a newline that ends the text. *)
Definition match_set (key line : string) : option string :=
  match Str.after_prefix ("set(CMake_VERSION_" ++ key ++ " ") line with
  | None => None
  | Some rest =>
      let '(digits, tail) := Str.span Str.isdigit rest in
      match digits with
      | EmptyString => None
      | _ =>
          if String.eqb tail ")" || String.eqb tail (")" ++ Str.nl)
          then Some digits else None
      end
  end.

Definition _CMAKE_VERSION_MAJOR_PATTERN : string -> option string := match_set "MAJOR".
Definition _CMAKE_VERSION_MINOR_PATTERN : string -> option string := match_set "MINOR".
Definition _CMAKE_VERSION_PATCH_PATTERN : string -> option string := match_set "PATCH".

(** The variables [major], [minor], [patch] of the loop. *)
Record components : Type := mkComponents {
  major : option string;
  minor : option string;
  patch : option string
}.

(** The truth value of a variable that is [None] or a text. *)
Definition truthy (x : option string) : bool :=
  match x with
  | Some (String _ _) => true
  | _ => false
  end.

(** The loop over [f.readlines()]: a line that matches a pattern sets its
    variable, any other line ends the loop once the three are set. *)
Fixpoint scan_lines (lines : list string) (found : components) : components :=
  match lines with
  | [] => found
  | line :: rest =>
      let line := Str.strip line in
      match _CMAKE_VERSION_MAJOR_PATTERN line with
      | Some group => scan_lines rest (mkComponents (Some group) (minor found) (patch found))
      | None =>
          match _CMAKE_VERSION_MINOR_PATTERN line with
          | Some group => scan_lines rest (mkComponents (major found) (Some group) (patch found))
          | None =>
              match _CMAKE_VERSION_PATCH_PATTERN line with
              | Some group => scan_lines rest (mkComponents (major found) (minor found) (Some group))
              | None =>
                  if truthy (major found) && truthy (minor found) && truthy (patch found)
                  then found
                  else scan_lines rest found
              end
          end
      end
  end.

(** [_find_cmake_source_version], as a function of the version file:
    [None] when it is no file, its lines otherwise.  The result is the text
    handed to [Version], or [None]. *)
Definition _find_cmake_source_version (version_file : option (list string))
  : option string :=
  match version_file with
  | None => None
  | Some lines =>
      let found := scan_lines lines (mkComponents None None None) in
      match major found, minor found, patch found with
      | Some (String a x), Some (String b y), Some (String c z) =>
          Some (String a x ++ "." ++ String b y ++ "." ++ String c z)
      | _, _, _ => None
      end
  end.

(* ====================================================================== *)
(** * [preset_utils.py] *)

(** A preset as this file uses it: [Preset(name, options)], with the
    options a sequence of pairs of a name and a value that is a text or
    [None]. *)
Record Preset : Type := mkPreset {
  preset_name : string;
  preset_options : list (string * pyval)
}.

(** [_simplify_preset]. *)
Definition _simplify_preset (preset : Preset) : Preset :=
  let simplified_options :=
    fold_left
      (fun simplified_options option =>
         let '(name, value) := option in
         let simplified_options :=
           if OrderedDict.contains simplified_options name
           then OrderedDict.remove simplified_options name
           else simplified_options in
         OrderedDict.setitem simplified_options name value)
      (preset_options preset) (OrderedDict.empty pyval) in
  mkPreset (preset_name preset) simplified_options.

(** [_format_preset]. *)
Definition _format_preset (preset : Preset) : string :=
  fold_left
    (fun preset_str option =>
       let '(name, value) := option in
       match value with
       | PyNone => preset_str ++ name ++ Str.nl
       | _ => preset_str ++ name ++ "=" ++ Py.text_type value ++ Str.nl
       end)
    (preset_options preset)
    ("[preset: " ++ preset_name preset ++ "]" ++ Str.nl).

(** [value_a != value_b] on values. *)
Definition py_ne (a b : pyval) : bool := negb (Py.eq a b).

(** [_diff_namespaces], on the attribute dicts of the two namespaces.
    [all_keys] is the set of the keys of both in the order the interpreter
    happens to iterate it. *)
Definition _diff_namespaces (all_keys : list string)
  (dict_a dict_b : OrderedDict.t pyval) : OrderedDict.t pyval :=
  fold_left
    (fun diff key =>
       if OrderedDict.contains dict_a key && OrderedDict.contains dict_b key then
         match OrderedDict.lookup dict_a key, OrderedDict.lookup dict_b key with
         | Some value_a, Some value_b =>
             if py_ne value_a value_b
             then OrderedDict.setitem diff key value_b
             else diff
         | _, _ => diff
         end
       else if OrderedDict.contains dict_b key then
         match OrderedDict.lookup dict_b key with
         | Some value_b => OrderedDict.setitem diff key value_b
         | None => diff
         end
       else diff)
    all_keys (OrderedDict.empty pyval).

(* ====================================================================== *)
(** * Vocabulary of the further statements *)

(** An option list with, of every name, the last option only. *)
Fixpoint keep_last (options : list (string * pyval)) : list (string * pyval) :=
  match options with
  | [] => []
  | option :: rest =>
      if existsb (String.eqb (fst option)) (map fst rest)
      then keep_last rest
      else option :: keep_last rest
  end.

(** The value a list of options gives a name: the one of its last option. *)
Fixpoint last_value (options : list (string * pyval)) (name : string)
  : option pyval :=
  match options with
  | [] => None
  | (n, v) :: rest =>
      match last_value rest name with
      | Some v' => Some v'
      | None => if String.eqb n name then Some v else None
      end
  end.

(** The line [_format_preset] writes for an option. *)
Definition option_line (option : string * pyval) : string :=
  match snd option with
  | PyNone => fst option
  | value => fst option ++ "=" ++ Py.text_type value
  end.

(** [text.split("\n")]. *)
Fixpoint split_lines (text : string) : list string :=
  match text with
  | EmptyString => [EmptyString]
  | String c text' =>
      if Ascii.eqb c Py.newline then EmptyString :: split_lines text'
      else match split_lines text' with
           | line :: lines => String c line :: lines
           | [] => [String c EmptyString]
           end
  end.

Definition no_newline (s : string) : bool :=
  Py.all_chars (fun c => negb (Ascii.eqb c Py.newline)) s.

(** A line that matches none of the three patterns. *)
Definition other_line (line : string) : bool :=
  match _CMAKE_VERSION_MAJOR_PATTERN (Str.strip line),
        _CMAKE_VERSION_MINOR_PATTERN (Str.strip line),
        _CMAKE_VERSION_PATCH_PATTERN (Str.strip line) with
  | None, None, None => true
  | _, _, _ => false
  end.

Definition digits (s : string) : bool :=
  match s with
  | EmptyString => false
  | _ => Py.all_chars Str.isdigit s
  end.

(** The number a sequence of decimal digits writes, read from the left
    onto an accumulator. *)
Fixpoint uint_value (d : Decimal.uint) (acc : Z) : Z :=
  match d with
  | Decimal.Nil => acc
  | Decimal.D0 d => uint_value d (10 * acc + 0)
  | Decimal.D1 d => uint_value d (10 * acc + 1)
  | Decimal.D2 d => uint_value d (10 * acc + 2)
  | Decimal.D3 d => uint_value d (10 * acc + 3)
  | Decimal.D4 d => uint_value d (10 * acc + 4)
  | Decimal.D5 d => uint_value d (10 * acc + 5)
  | Decimal.D6 d => uint_value d (10 * acc + 6)
  | Decimal.D7 d => uint_value d (10 * acc + 7)
  | Decimal.D8 d => uint_value d (10 * acc + 8)
  | Decimal.D9 d => uint_value d (10 * acc + 9)
  end.

(** The first character of a text is outside a class, or there is none. *)
Definition stops (p : ascii -> bool) (s : string) : Prop :=
  match s with
  | EmptyString => True
  | String c _ => p c = false
  end.

(** A line sets a component: its stripped text matches the pattern of the
    key. *)
Definition sets (key line : string) : bool :=
  match match_set key (Str.strip line) with
  | Some _ => true
  | None => false
  end.

(** Some line of a file sets a component. *)
Definition has (key : string) (lines : list string) : bool :=
  existsb (sets key) lines.

(** The group of the last line that sets a component, or the value before. *)
Fixpoint last_group (key : string) (lines : list string) (before : option string)
  : option string :=
  match lines with
  | [] => before
  | line :: rest =>
      match match_set key (Str.strip line) with
      | Some group => last_group key rest (Some group)
      | None => last_group key rest before
      end
  end.

(** The three variables are set. *)
Definition complete (found : components) : bool :=
  truthy (major found) && truthy (minor found) && truthy (patch found).

(** No variable holds the empty text. *)
Definition proper (found : components) : Prop :=
  major found <> Some "" /\ minor found <> Some "" /\ patch found <> Some "".

Definition nothing_found : components := mkComponents None None None.

(** A variable is unset or holds the group of a line of the file. *)
Definition written (key : string) (lines : list string) (x : option string) : Prop :=
  match x with
  | None => True
  | Some group =>
      exists line, In line lines /\ match_set key (Str.strip line) = Some group
  end.

(** The lines of the options, each ended by a newline. *)
Fixpoint option_lines (options : list (string * pyval)) : string :=
  match options with
  | [] => EmptyString
  | option :: rest => option_line option ++ Str.nl ++ option_lines rest
  end.

(** What the difference of two dicts holds under a key: the value of the
    second when the key is new there or its value differs, nothing
    otherwise. *)
Definition changed (dict_a dict_b : OrderedDict.t pyval) (key : string)
  : option pyval :=
  match OrderedDict.lookup dict_b key with
  | Some value_b =>
      match OrderedDict.lookup dict_a key with
      | Some value_a => if Py.eq value_a value_b then None else Some value_b
      | None => Some value_b
      end
  | None => None
  end.

(* ====================================================================== *)
(** * Text lemmas *)

Section Text.

Lemma endswith_app (prefix suffix : string) :
  Py.endswith (prefix ++ suffix) suffix = true.
Proof.
  induction prefix as [|c prefix IH]; cbn [append Py.endswith].
  - destruct suffix; cbn [Py.endswith]; now rewrite String.eqb_refl.
  - destruct (String.eqb (String c (prefix ++ suffix)) suffix); auto.
Qed.

Lemma endswith_split (s suffix : string) :
  Py.endswith s suffix = true -> exists prefix, s = prefix ++ suffix.
Proof.
  induction s as [|c s IH]; cbn [Py.endswith].
  - destruct (String.eqb "" suffix) eqn:E; try discriminate.
    intros _. apply String.eqb_eq in E. now exists "".
  - destruct (String.eqb (String c s) suffix) eqn:E.
    + intros _. apply String.eqb_eq in E. now exists "".
    + intros H. destruct (IH H) as [prefix ->]. now exists (String c prefix).
Qed.

(** [str.endswith] is "the text is some prefix followed by the suffix". *)
Lemma endswith_iff (s suffix : string) :
  Py.endswith s suffix = true <-> exists prefix, s = prefix ++ suffix.
Proof.
  split; [apply endswith_split | intros [prefix ->]; apply endswith_app].
Qed.

Lemma contains_In (xs : list string) (x : string) :
  Py.contains xs x = true <-> In x xs.
Proof.
  unfold Py.contains. rewrite existsb_exists. split.
  - intros [y [Hy E]]. apply String.eqb_eq in E. now subst.
  - intros H. exists x. split; [assumption | apply String.eqb_refl].
Qed.

Lemma all_chars_app (p : ascii -> bool) (s1 s2 : string) :
  Py.all_chars p (s1 ++ s2) = Py.all_chars p s1 && Py.all_chars p s2.
Proof.
  induction s1 as [|c s1 IH]; simpl; [reflexivity|].
  now rewrite IH, andb_assoc.
Qed.

Variable p : ascii -> bool.
Hypothesis p_space : forall c, Py.is_space c = true -> p c = true.

Lemma all_chars_lstrip (s : string) :
  Py.all_chars p (Py.lstrip s) = true -> Py.all_chars p s = true.
Proof.
  induction s as [|c s IH]; simpl; [auto|].
  destruct (Py.is_space c) eqn:E; [|auto].
  intros H. now rewrite (p_space _ E), IH.
Qed.

Lemma all_chars_rstrip (s : string) :
  Py.all_chars p (Py.rstrip s) = true -> Py.all_chars p s = true.
Proof.
  induction s as [|c s IH]; simpl; [auto|].
  destruct (Py.rstrip s) as [|d r] eqn:R.
  - destruct (Py.is_space c) eqn:E; simpl; intros H.
    + now rewrite (p_space _ E), IH.
    + rewrite andb_true_r in H. now rewrite H, IH.
  - simpl. intros H. apply andb_prop in H as [Hc Hr].
    rewrite Hc. simpl. apply IH. exact Hr.
Qed.

End Text.


Lemma int_digits_chars (s : string) :
  forall acc last n,
    Py.int_digits s acc last = Some n -> Py.all_chars int_char s = true.
Proof.
  induction s as [|c s IH]; simpl; [reflexivity|].
  intros acc last n. unfold int_char at 1.
  destruct (Py.digit_of c) as [d|].
  - intros H. rewrite (IH _ _ _ H). now rewrite orb_true_r.
  - destruct (Ascii.eqb c "_"); [|discriminate].
    destruct last; try discriminate.
    intros H. rewrite (IH _ _ _ H). now rewrite !orb_true_r.
Qed.

Lemma int_chars (s : string) (n : Z) :
  Py.int s = Some n -> Py.all_chars int_char s = true.
Proof.
  unfold Py.int. intros H.
  destruct (Py.int_max_str_digits <? Py.count_digits s); [discriminate H|].
  assert (Hs : forall c, Py.is_space c = true -> int_char c = true)
    by (intros c E; unfold int_char; now rewrite E).
  apply (all_chars_lstrip _ Hs), (all_chars_rstrip _ Hs).
  destruct (Py.rstrip (Py.lstrip s)) as [|c r] eqn:R; [discriminate H|].
  destruct (Ascii.eqb c "+") eqn:Eplus.
  - apply Ascii.eqb_eq in Eplus. subst c.
    cbn [Py.all_chars]. exact (int_digits_chars _ _ _ H).
  - destruct (Ascii.eqb c "-") eqn:Eminus.
    + apply Ascii.eqb_eq in Eminus. subst c.
      destruct (Py.int_digits r 0 Py.Nothing) eqn:D; [|discriminate H].
      cbn [Py.all_chars]. exact (int_digits_chars _ _ _ D).
    + exact (int_digits_chars _ _ _ H).
Qed.

(** A text that ends with [-NOTFOUND] is no integer. *)
Lemma int_notfound (s : string) :
  Py.endswith s _NOTFOUND_SUFFIX = true -> Py.int s = None.
Proof.
  intros H. apply endswith_split in H as [prefix ->].
  destruct (Py.int (prefix ++ _NOTFOUND_SUFFIX)) as [n|] eqn:E; [|reflexivity].
  apply int_chars in E. rewrite all_chars_app in E.
  apply andb_prop in E as [_ E]. discriminate E.
Qed.


(** ** The parser of integers against the words of the specification *)

Lemma digit_of_value (c : ascii) : Py.digit_of c = digit_value c.
Proof. destruct c as [[] [] [] [] [] [] [] []]; reflexivity. Qed.

Lemma space_blank (c : ascii) : Py.is_space c = is_blank c.
Proof. destruct c as [[] [] [] [] [] [] [] []]; reflexivity. Qed.

Lemma blank_no_digit (c : ascii) : is_blank c = true -> Py.digit_of c = None.
Proof. destruct c as [[] [] [] [] [] [] [] []]; vm_compute; congruence. Qed.

Lemma digit_plain (c : ascii) (d : Z) :
  digit_value c = Some d ->
  Py.is_space c = false /\ Ascii.eqb c "+" = false /\ Ascii.eqb c "-" = false.
Proof.
  destruct c as [[] [] [] [] [] [] [] []]; vm_compute; try discriminate; auto.
Qed.

Lemma int_digits_under (s : string) (acc : Z) :
  Py.int_digits s acc Py.Underscore = Py.int_digits s acc Py.Nothing.
Proof. destruct s as [|c s]; reflexivity. Qed.

Lemma int_digits_digit (c : ascii) (d : Z) (s : string) (acc : Z) (last : Py.seen) :
  digit_value c = Some d ->
  Py.int_digits (String c s) acc last = Py.int_digits s (10 * acc + d) Py.Digit.
Proof.
  intros D. cbn [Py.int_digits]. now rewrite digit_of_value, D.
Qed.

(** A run of digits is read as the number it writes. *)
Lemma int_digits_of_run (s : string) (ds : list Z) :
  digit_run s ds ->
  forall acc last, Py.int_digits s acc last = Some (number_from acc ds).
Proof.
  induction 1 as [c d D | c d s ds D R IH | c d s ds D R IH]; intros acc last;
    rewrite (@int_digits_digit c d _ acc last D).
  - reflexivity.
  - apply IH.
  - cbn [Py.int_digits]. change (Py.digit_of "_") with (@None Z).
    cbv iota. change (Ascii.eqb "_" "_") with true. cbv iota.
    apply IH.
Qed.

(** What is read as a number is a run of digits, or, after a digit,
    nothing more or an underscore and a run. *)
Lemma run_of_int_digits (s : string) :
  forall acc last n,
    Py.int_digits s acc last = Some n ->
    (last = Py.Digit /\ s = "" /\ n = acc)
    \/ (exists ds, digit_run s ds /\ n = number_from acc ds)
    \/ (last = Py.Digit
        /\ exists s' ds, s = String "_" s' /\ digit_run s' ds
                         /\ n = number_from acc ds).
Proof.
  induction s as [|c s IH]; intros acc last n; cbn [Py.int_digits].
  - destruct last; try discriminate. intros E. inversion E. now left.
  - rewrite digit_of_value. destruct (digit_value c) as [d|] eqn:D.
    + intros H. right. left.
      destruct (IH _ _ _ H) as [(_ & -> & ->) | [(ds & R & ->) | (_ & s' & ds & -> & R & ->)]].
      * exists [d]. split; [now constructor | reflexivity].
      * exists (d :: ds). split; [now constructor | reflexivity].
      * exists (d :: ds). split; [now apply run_under | reflexivity].
    + destruct (Ascii.eqb c "_") eqn:U; [|discriminate].
      apply Ascii.eqb_eq in U. subst c.
      destruct last; try discriminate.
      rewrite int_digits_under. intros H. right. right. split; [reflexivity|].
      destruct (IH _ _ _ H) as [(L & _) | [(ds & R & ->) | (L & _)]];
        try discriminate L.
      now exists s, ds.
Qed.

Lemma int_digits_iff (s : string) (acc n : Z) :
  Py.int_digits s acc Py.Nothing = Some n
  <-> exists ds, digit_run s ds /\ n = number_from acc ds.
Proof.
  split.
  - intros H.
    destruct (run_of_int_digits _ _ _ H) as [(L & _) | [R | (L & _)]];
      try discriminate L. exact R.
  - intros (ds & R & ->). now apply int_digits_of_run.
Qed.

Lemma count_digits_app (a b : string) :
  Py.count_digits (a ++ b) = Py.count_digits a + Py.count_digits b.
Proof.
  induction a as [|c a IH]; cbn [append Py.count_digits]; [reflexivity|].
  destruct (Py.digit_of c); lia.
Qed.

Lemma count_digits_nonneg (s : string) : 0 <= Py.count_digits s.
Proof.
  induction s as [|c s IH]; cbn [Py.count_digits]; [lia|].
  destruct (Py.digit_of c); lia.
Qed.

Lemma count_digits_blank (s : string) :
  Py.all_chars is_blank s = true -> Py.count_digits s = 0.
Proof.
  induction s as [|c s IH]; cbn [Py.all_chars Py.count_digits]; [reflexivity|].
  intros H. apply andb_prop in H as [Hc Hs].
  now rewrite (blank_no_digit _ Hc), IH.
Qed.

Lemma count_digits_run (s : string) (ds : list Z) :
  digit_run s ds -> Py.count_digits s = Z.of_nat (List.length ds).
Proof.
  induction 1 as [c d D | c d s ds D R IH | c d s ds D R IH];
    cbn [Py.count_digits List.length]; rewrite digit_of_value, D.
  - reflexivity.
  - rewrite IH. lia.
  - change (Py.digit_of "_") with (@None Z). cbv iota. rewrite IH. lia.
Qed.

Lemma run_head (s : string) (ds : list Z) :
  digit_run s ds -> exists c d rest, s = String c rest /\ digit_value c = Some d.
Proof. destruct 1; eauto. Qed.

Lemma py_rstrip_app (a b : string) :
  Py.rstrip (a ++ b)
  = match Py.rstrip b with
    | EmptyString => Py.rstrip a
    | _ => a ++ Py.rstrip b
    end.
Proof.
  induction a as [|c a IH]; cbn [append Py.rstrip].
  - now destruct (Py.rstrip b).
  - rewrite IH. destruct (Py.rstrip b) as [|d r]; [reflexivity|].
    now destruct a.
Qed.

Lemma py_rstrip_blank (s : string) :
  Py.all_chars is_blank s = true -> Py.rstrip s = "".
Proof.
  induction s as [|c s IH]; cbn [Py.all_chars Py.rstrip]; [reflexivity|].
  intros H. apply andb_prop in H as [Hc Hs].
  now rewrite (IH Hs), space_blank, Hc.
Qed.

Lemma py_lstrip_blank (left s : string) :
  Py.all_chars is_blank left = true -> Py.lstrip (left ++ s) = Py.lstrip s.
Proof.
  induction left as [|c left IH]; cbn [append Py.all_chars Py.lstrip]; [reflexivity|].
  intros H. apply andb_prop in H as [Hc Hl]. rewrite space_blank, Hc. now apply IH.
Qed.

Lemma py_rstrip_run (s : string) (ds : list Z) :
  digit_run s ds -> Py.rstrip s = s.
Proof.
  induction 1 as [c d D | c d s ds D R IH | c d s ds D R IH];
    destruct (digit_plain _ D) as (S & _); cbn [Py.rstrip].
  - now rewrite S.
  - rewrite IH. destruct (run_head R) as (c' & d' & rest & -> & _). reflexivity.
  - rewrite IH. destruct (run_head R) as (c' & d' & rest & -> & _). reflexivity.
Qed.

Lemma py_lstrip_split (s : string) :
  exists left, s = left ++ Py.lstrip s /\ Py.all_chars is_blank left = true.
Proof.
  induction s as [|c s IH]; cbn [Py.lstrip].
  - now exists "".
  - destruct (Py.is_space c) eqn:S.
    + destruct IH as (left & E & B). exists (String c left).
      cbn [append Py.all_chars]. rewrite <- E, <- space_blank, S. auto.
    + now exists "".
Qed.

Lemma py_rstrip_split (s : string) :
  exists right, s = Py.rstrip s ++ right /\ Py.all_chars is_blank right = true.
Proof.
  induction s as [|c s IH]; cbn [Py.rstrip].
  - now exists "".
  - destruct IH as (right & E & B).
    destruct (Py.rstrip s) as [|d r] eqn:R.
    + cbn [append] in E. subst right.
      destruct (Py.is_space c) eqn:S.
      * exists (String c s). cbn [append Py.all_chars].
        rewrite <- space_blank, S. split; [reflexivity | exact B].
      * exists s. split; [reflexivity | exact B].
    + exists right. split; [|exact B].
      cbn [append]. f_equal. exact E.
Qed.

(** [int] accepts exactly the texts that parse as an integer, and reads
    the integer they write. *)
Lemma int_iff (s : string) (n : Z) : Py.int s = Some n <-> int_text s n.
Proof.
  unfold Py.int, Py.int_max_str_digits. split.
  - destruct (4300 <? Py.count_digits s) eqn:Limit; [discriminate|].
    apply Z.ltb_ge in Limit.
    destruct (py_lstrip_split s) as (left & Es & Bl).
    destruct (py_rstrip_split (Py.lstrip s)) as (right & Er & Br).
    destruct (Py.rstrip (Py.lstrip s)) as [|c r] eqn:R; [discriminate|].
    rewrite Er in Es. rewrite Es in Limit.
    rewrite !count_digits_app in Limit.
    pose proof (count_digits_nonneg left) as Nl.
    pose proof (count_digits_nonneg right) as Nr.
    assert (Found : forall sign body ds m,
               String c r = sign ++ body ->
               Py.count_digits (String c r) = Py.count_digits body ->
               digit_run body ds ->
               ((sign = "" \/ sign = "+") /\ m = number_of ds
                \/ sign = "-" /\ m = - number_of ds) ->
               int_text s m).
    { intros sign body ds m E C Run Sign.
      exists left, sign, body, right, ds.
      split; [|split; [exact Bl|split; [exact Br|split; [exact Run|split; [|exact Sign]]]]].
      - rewrite Es, E. f_equal.
        clear. induction sign as [|x sign IH]; cbn [append];
          [reflexivity | now rewrite IH].
      - rewrite <- (count_digits_run Run), <- C. lia. }
    destruct (Ascii.eqb c "+") eqn:Eplus.
    { apply Ascii.eqb_eq in Eplus. subst c. intros H.
      apply int_digits_iff in H as (ds & Run & ->).
      apply (Found "+" r ds); auto. }
    destruct (Ascii.eqb c "-") eqn:Eminus.
    { apply Ascii.eqb_eq in Eminus. subst c.
      destruct (Py.int_digits r 0 Py.Nothing) as [m|] eqn:H; [|discriminate].
      intros E. inversion E. subst n.
      apply int_digits_iff in H as (ds & Run & ->).
      apply (Found "-" r ds); auto. }
    intros H. apply int_digits_iff in H as (ds & Run & ->).
    apply (Found "" (String c r) ds); auto.
  - intros (left & sign & body & right & ds & -> & Bl & Br & Run & Len & Sign).
    assert (Count : Py.count_digits (left ++ sign ++ body ++ right)
                    = Z.of_nat (List.length ds)).
    { assert (Cs : Py.count_digits sign = 0)
        by (destruct Sign as [[[-> | ->] _] | [-> _]]; reflexivity).
      rewrite !count_digits_app, Cs, (count_digits_blank _ Bl),
        (count_digits_blank _ Br), (count_digits_run Run).
      lia. }
    rewrite Count. apply Z.ltb_ge in Len. rewrite Len.
    rewrite (@py_lstrip_blank left _ Bl).
    destruct (run_head Run) as (c & d & rest & Eb & D).
    destruct (digit_plain _ D) as (Sc & Pc & Mc).
    pose proof (py_rstrip_run Run) as Rb.
    assert (Tail : Py.rstrip (body ++ right) = body).
    { rewrite py_rstrip_app, (py_rstrip_blank _ Br). exact Rb. }
    pose proof (int_digits_of_run Run 0 Py.Nothing) as Value.
    assert (Signed : forall x : ascii,
               Py.rstrip (String x (body ++ right)) = String x body).
    { intros x. change (String x (body ++ right)) with (String x "" ++ (body ++ right)).
      rewrite py_rstrip_app, Tail, Eb. reflexivity. }
    destruct Sign as [[[-> | ->] ->] | [-> ->]].
    + cbn [append].
      assert (Lb : Py.lstrip (body ++ right) = body ++ right)
        by (rewrite Eb; cbn [append Py.lstrip]; now rewrite Sc).
      rewrite Lb, Tail. rewrite Eb at 1. rewrite Pc, Mc, <- Eb. exact Value.
    + cbn [append Py.lstrip]. change (Py.is_space "+") with false. cbv iota.
      rewrite Signed. change (Ascii.eqb "+" "+") with true. cbv iota.
      exact Value.
    + cbn [append Py.lstrip]. change (Py.is_space "-") with false. cbv iota.
      rewrite Signed. change (Ascii.eqb "-" "+") with false.
      change (Ascii.eqb "-" "-") with true. cbv iota.
      rewrite Value. reflexivity.
Qed.

Lemma is_truthy_iff (v : pyval) :
  _is_truthy v = true <-> truthy_text (Py.upper (Py.text_type v)).
Proof.
  unfold _is_truthy, truthy_text.
  change ["TRUE"; "ON"; "YES"; "Y"] with _TRUTHY_VALUES.
  destruct (Py.contains _TRUTHY_VALUES _) eqn:C.
  - apply contains_In in C. tauto.
  - assert (N : ~ In (Py.upper (Py.text_type v)) _TRUTHY_VALUES)
      by (intros I; apply contains_In in I; congruence).
    destruct (Py.int _) as [n|] eqn:I.
    + apply int_iff in I. rewrite negb_true_iff, Z.eqb_neq. split.
      * intros Hn. right. now exists n.
      * intros [J | [m [E Hm]]]; [contradiction|].
        apply int_iff in E. apply int_iff in I. congruence.
    + split; [discriminate|].
      intros [J | [m [E _]]]; [contradiction|].
      apply int_iff in E. congruence.
Qed.

Lemma is_falsey_iff (v : pyval) :
  _is_falsey v = true <-> falsey_text (Py.upper (Py.text_type v)).
Proof.
  unfold _is_falsey, falsey_text.
  change ["0"; "FALSE"; "OFF"; "NO"; "N"; "IGNORE"; "NOTFOUND"] with _FALSEY_VALUES.
  change "-NOTFOUND" with _NOTFOUND_SUFFIX.
  rewrite !orb_true_iff, String.eqb_eq, contains_In, endswith_iff.
  tauto.
Qed.

(** No text is in both tables. *)
Lemma truthy_not_falsey (v : pyval) :
  _is_truthy v = true -> _is_falsey v = false.
Proof.
  unfold _is_truthy, _is_falsey.
  set (text := Py.upper (Py.text_type v)).
  destruct (Py.contains _TRUTHY_VALUES text) eqn:C.
  - intros _. apply contains_In in C. simpl in C.
    destruct C as [<- | [<- | [<- | [<- | []]]]]; reflexivity.
  - destruct (Py.int text) as [n|] eqn:I; [|discriminate].
    rewrite negb_true_iff, Z.eqb_neq. intros Hn.
    destruct (String.eqb text "") eqn:E0.
    { apply String.eqb_eq in E0. rewrite E0 in I. discriminate I. }
    destruct (Py.contains _FALSEY_VALUES text) eqn:F.
    { apply contains_In in F. simpl in F.
      destruct F as [<- | [<- | [<- | [<- | [<- | [<- | [<- | []]]]]]]];
        vm_compute in I; congruence. }
    destruct (Py.endswith text _NOTFOUND_SUFFIX) eqn:S; [|reflexivity].
    apply int_notfound in S. congruence.
Qed.

Lemma cmake_bool_error (v : pyval) (e : exn) :
  _cmake_bool v = Raise e -> e = ValueError (Invalid_bool_value v).
Proof.
  unfold _cmake_bool.
  destruct (_is_truthy v); [discriminate|].
  destruct (_is_falsey v); [discriminate|].
  intros E. now inversion E.
Qed.

(* ====================================================================== *)
(** * The classifier *)

(** C1.  Boolean coercion looks at the uppercase text of its argument only.
    It returns true exactly when that text is one of TRUE, ON, YES, Y or
    parses as an integer other than zero; it returns false exactly when the
    text is empty, is one of 0, FALSE, OFF, NO, N, IGNORE, NOTFOUND, or ends
    with [-NOTFOUND]; for every other input it raises the invalid-boolean
    error.  The tables and what parses as an integer are spelled out in the
    statement ([truthy_text], [falsey_text], [int_text]), not taken from the
    code.  This holds for every value that has a text, which is every
    value but an integer of more than 4300 digits and a container of one.
    The texts of the tests are classified as stated, whatever their case,
    and [maybe] and the float text [2.5] are rejected. *)
Theorem cmake_bool_classifies :
  (forall v : pyval,
      Py.str_defined v = true ->
      let text := Py.upper (Py.text_type v) in
      (_cmake_bool v = Ok true <-> truthy_text text)
      /\ (_cmake_bool v = Ok false <-> falsey_text text)
      /\ (_cmake_bool v = Raise (ValueError (Invalid_bool_value v))
          <-> ~ truthy_text text /\ ~ falsey_text text)
      /\ (forall e, _cmake_bool v = Raise e -> InvalidBoolean e))
  /\ Forall (fun text => _cmake_bool (PyStr text) = Ok true)
       ["TRUE"; "On"; "yes"; "Y"; "y"; "1"; "2"; "-7"; " 12 "; "+5"; "1_000"]
  /\ Forall (fun text => _cmake_bool (PyStr text) = Ok false)
       [""; "0"; "false"; "Off"; "no"; "N"; "n"; "ignore"; "notfound";
        "anything-NOTFOUND"; "some-notfound"]
  /\ Forall (fun text =>
               _cmake_bool (PyStr text) = Raise (ValueError (Invalid_bool_value (PyStr text))))
       ["maybe"; "2.5"; "-0"; "00"; "1__0"; "_1"; "- 1"; " "]
  /\ _cmake_bool (PyFloat "2.5") = Raise (ValueError (Invalid_bool_value (PyFloat "2.5"))).
Proof.
  split; [|repeat split; repeat constructor].
  intros v _ text. subst text.
  rewrite <- is_truthy_iff, <- is_falsey_iff.
  pose proof (truthy_not_falsey v) as D.
  unfold _cmake_bool.
  destruct (_is_truthy v) eqn:T; [rewrite (D eq_refl)|];
    [|destruct (_is_falsey v) eqn:F];
    (repeat split; try congruence; try tauto;
     try (intros [? ?]; congruence);
     try (intros e E; inversion E; eexists; reflexivity)).
Qed.

(* ====================================================================== *)
(** * Values *)

(** Induction on values, through the items of lists and tuples. *)
Lemma pyval_nested_ind (P : pyval -> Prop)
  (HNone : P PyNone)
  (HBool : forall b, P (PyBool b))
  (HInt : forall n, P (PyInt n))
  (HFloat : forall r, P (PyFloat r))
  (HStr : forall s, P (PyStr s))
  (HList : forall items, Forall P items -> P (PyList items))
  (HTuple : forall items, Forall P items -> P (PyTuple items))
  (HType : forall t, P (PyValueType t))
  (HObject : forall i text r, P (PyObject i text r)) :
  forall v, P v.
Proof.
  fix IH 1. intros [ | b | n | r | s | items | items | t | i text r].
  - exact HNone.
  - apply HBool.
  - apply HInt.
  - apply HFloat.
  - apply HStr.
  - apply HList. induction items as [|x items IHitems]; constructor.
    + apply IH.
    + exact IHitems.
  - apply HTuple. induction items as [|x items IHitems]; constructor.
    + apply IH.
    + exact IHitems.
  - apply HType.
  - apply HObject.
Qed.

Lemma list_eq_sym (xs : list pyval) :
  Forall (fun x => forall y, Py.eq x y = Py.eq y x) xs ->
  forall ys, Py.list_eq Py.eq xs ys = Py.list_eq Py.eq ys xs.
Proof.
  induction 1 as [|x xs Hx _ IH]; intros [|y ys]; simpl; try reflexivity.
  now rewrite Hx, IH.
Qed.

Lemma float_eq_sym (r s : string) : Py.float_eq r s = Py.float_eq s r.
Proof.
  unfold Py.float_eq.
  destruct (Py.float_int r), (Py.float_int s); try reflexivity.
  - apply Z.eqb_sym.
  - rewrite (String.eqb_sym r s).
    destruct (String.eqb s r) eqn:E; [|reflexivity].
    apply String.eqb_eq in E. now subst.
Qed.

Lemma number_eq_sym (a b : pyval) : Py.number_eq a b = Py.number_eq b a.
Proof.
  unfold Py.number_eq.
  destruct (Py.number a), (Py.number b); try reflexivity. apply Z.eqb_sym.
Qed.

(** [==] on values does not depend on the side an operand is on. *)
Lemma eq_sym (a : pyval) : forall b, Py.eq a b = Py.eq b a.
Proof.
  induction a as [ | b | n | r | s | xs IH | xs IH | t | i text r]
    using pyval_nested_ind;
    intros [ | b' | n' | r' | s' | ys | ys | t' | i' text' r'];
    cbn [Py.eq]; try reflexivity;
    auto using number_eq_sym, float_eq_sym, String.eqb_sym, list_eq_sym,
      Nat.eqb_sym.
Qed.

Lemma eq_BOOL (value_type : pyval) :
  Py.eq value_type (PyValueType BOOL) = true <-> value_type = PyValueType BOOL.
Proof.
  split; [|intros ->; reflexivity].
  destruct value_type as [ | | | | | | | [n] | ]; try discriminate.
  cbn [Py.eq vt_name BOOL]. intros E. apply String.eqb_eq in E. now subst.
Qed.

Lemma cmake_bool_bool (b : bool) : _cmake_bool (PyBool b) = Ok b.
Proof. destruct b; reflexivity. Qed.

(* ====================================================================== *)
(** * Value wrappers *)

Lemma wrapper_eq_cases (a b : wrapper) :
  wrapper_eq a b = related (type a) (type b) && Py.eq (value a) (value b).
Proof.
  destruct a as [v | x | xs], b as [w | y | ys];
    unfold wrapper_eq, wrapper__eq__, isinstance, related, same_class;
    cbn [type issubclass andb orb negb value]; try reflexivity;
    apply eq_sym.
Qed.

(** C5 (as the code has it).  [==] on two value representations holds
    exactly when the contained values are equal and the two variants are the
    same or one of them is the generic scalar, from which the other two
    derive: a scalar equals a Bool or a List that holds an equal value, in
    either order, while a Bool and a List are never equal; [!=] is the
    negation. *)
Theorem wrapper_eq_related :
  (forall a b : wrapper,
      wrapper_eq a b = true
      <-> (type a = type b \/ type a = _ValueWrapper \/ type b = _ValueWrapper)
          /\ Py.eq (value a) (value b) = true)
  /\ (forall a b : wrapper, wrapper_eq a b = wrapper_eq b a)
  /\ (forall (b : bool) (items : list pyval),
         wrapper_eq (BoolWrapper b) (ListWrapper items) = false
         /\ wrapper_eq (ListWrapper items) (BoolWrapper b) = false)
  /\ (forall a b : wrapper, wrapper_ne a b = negb (wrapper_eq a b)).
Proof.
  split; [|split; [|split]].
  - intros a b. rewrite wrapper_eq_cases, andb_true_iff.
    enough (R : related (type a) (type b) = true
                <-> type a = type b \/ type a = _ValueWrapper
                    \/ type b = _ValueWrapper) by (rewrite R; reflexivity).
    destruct (type a), (type b); cbn; intuition congruence.
  - intros a b. rewrite !wrapper_eq_cases, eq_sym. f_equal.
    unfold related. apply orb_comm.
  - intros b items. split; reflexivity.
  - reflexivity.
Qed.

(** C5 (as stated) fails: a scalar that holds [True] equals the Bool that
    holds [True], and a scalar that holds a list equals the List that holds
    the same list, although the variants differ. *)
Lemma wrapper_eq_across_variants :
  (type (ValueWrapper (PyBool true)) <> type (BoolWrapper true)
   /\ wrapper_eq (ValueWrapper (PyBool true)) (BoolWrapper true) = true
   /\ wrapper_eq (BoolWrapper true) (ValueWrapper (PyBool true)) = true)
  /\ (type (ValueWrapper (PyList [PyInt 1])) <> type (ListWrapper [PyInt 1])
      /\ wrapper_eq (ValueWrapper (PyList [PyInt 1])) (ListWrapper [PyInt 1]) = true
      /\ wrapper_eq (ListWrapper [PyInt 1]) (ValueWrapper (PyList [PyInt 1])) = true).
Proof. repeat split; (discriminate || reflexivity). Qed.

(** C6 (as the code has it).  A scalar renders as the text of the value it
    holds, whatever the value: [None] renders as [None], 42 as [42], 2.718
    as [2.718]; an entry that holds [None] and has no type renders as
    [NAME=None]. *)
Theorem scalar_renders_text :
  (forall v : pyval, wrapper_str (ValueWrapper v) = Py.text_type v)
  /\ wrapper_str (ValueWrapper PyNone) = "None"
  /\ wrapper_str (ValueWrapper (PyInt 42)) = "42"
  /\ wrapper_str (ValueWrapper (PyFloat "2.718")) = "2.718"
  /\ (exists entry,
         CMakeCacheEntry_init (PyStr "NAME") PyNone PyNone = Ok entry
         /\ entry_str entry = "NAME=None").
Proof.
  repeat split. eexists. split; reflexivity.
Qed.

(** C6 (as stated) fails: the scalar that holds [None] does not render as
    the empty text. *)
Lemma scalar_none_not_empty :
  ValueWrapper_init PyNone = Ok (ValueWrapper PyNone)
  /\ wrapper_str (ValueWrapper PyNone) <> "".
Proof. split; [reflexivity | discriminate]. Qed.

(* ====================================================================== *)
(** * Cache entries *)

Lemma from_name_member (name : string) (member : CMakeValueType) :
  from_name name = Ok member -> member = mkValueType name /\ In member __members__.
Proof.
  unfold from_name.
  destruct (find _ __members__) as [m|] eqn:F; [|discriminate].
  intros E. inversion E. subst m. apply find_some in F as [I N].
  apply String.eqb_eq in N. split; [|exact I].
  destruct member as [n]. simpl in N. now subst.
Qed.

Lemma from_name_error (name : string) (e : exn) :
  from_name name = Raise e -> e = ValueError (Unknown_value_type name).
Proof.
  unfold from_name. destruct (find _ __members__); [discriminate|].
  intros E. now inversion E.
Qed.

(** The constructor on a non-empty text name, branch by branch. *)
Lemma init_list (c : ascii) (rest : string) (items : list pyval) (value_type : pyval) :
  CMakeCacheEntry_init (PyStr (String c rest)) (PyList items) value_type
  = Ok (mkEntry (String c rest) (ListWrapper items) (PyValueType STRING)).
Proof. reflexivity. Qed.

Lemma init_bool (c : ascii) (rest : string) (value value_type : pyval) :
  Py.isinstance_list value = false ->
  Py.isinstance_bool value || Py.eq value_type (PyValueType BOOL) = true ->
  CMakeCacheEntry_init (PyStr (String c rest)) value value_type
  = (b <- _cmake_bool value ;;
     Ok (mkEntry (String c rest) (BoolWrapper b) (PyValueType BOOL))).
Proof.
  intros L B. unfold CMakeCacheEntry_init.
  cbn [String.length Nat.ltb Nat.leb]. rewrite L, B.
  unfold BoolWrapper_init. now destruct (_cmake_bool value).
Qed.

Lemma init_scalar (c : ascii) (rest : string) (value value_type : pyval) :
  Py.isinstance_list value = false ->
  Py.isinstance_bool value || Py.eq value_type (PyValueType BOOL) = false ->
  CMakeCacheEntry_init (PyStr (String c rest)) value value_type
  = (t <- resolve_type value_type ;;
     Ok (mkEntry (String c rest) (ValueWrapper value) t)).
Proof.
  intros L B. unfold CMakeCacheEntry_init.
  cbn [String.length Nat.ltb Nat.leb]. rewrite L, B.
  unfold ValueWrapper_init, resolve_type. cbn [bind].
  now destruct value_type.
Qed.

Lemma init_name (name value value_type : pyval) (entry : CMakeCacheEntry) :
  CMakeCacheEntry_init name value value_type = Ok entry ->
  name = PyStr (_name entry) /\ _name entry <> "".
Proof.
  destruct name as [ | | | | text | | | | ]; try discriminate.
  destruct text as [|c rest]; [discriminate|].
  destruct (Py.isinstance_list value) eqn:L.
  - destruct value; try discriminate L. rewrite init_list.
    intros E. inversion E. cbn. split; [reflexivity | discriminate].
  - destruct (Py.isinstance_bool value || Py.eq value_type (PyValueType BOOL)) eqn:B.
    + rewrite (init_bool _ _ _ _ L B). destruct (_cmake_bool value); [|discriminate].
      intros E. inversion E. cbn. split; [reflexivity | discriminate].
    + rewrite (init_scalar _ _ _ _ L B).
      destruct (resolve_type value_type); [|discriminate].
      intros E. inversion E. cbn. split; [reflexivity | discriminate].
Qed.

(** C2.  On a non-empty text name the constructor wraps a list as a List
    and types it STRING whatever type the caller gave; else wraps a bool, or
    any value when the caller gave the BOOL member, as a Bool through the
    classifier and types it BOOL (a bool is always accepted); else wraps
    the value as a scalar and keeps the caller's type, looking a type given
    as text up in the registry.  [set("X", [1, 2, 3])] gives the type
    STRING, the value [[1, 2, 3]] and the text [X:STRING=1;2;3]. *)
Theorem entry_init_wraps :
  (forall (c : ascii) (rest : string) (value value_type : pyval),
      let name := String c rest in
      let init := CMakeCacheEntry_init (PyStr name) value value_type in
      (forall items,
          value = PyList items ->
          init = Ok (mkEntry name (ListWrapper items) (PyValueType STRING)))
      /\ (Py.isinstance_list value = false ->
          Py.isinstance_bool value = true \/ value_type = PyValueType BOOL ->
          init = (b <- _cmake_bool value ;;
                  Ok (mkEntry name (BoolWrapper b) (PyValueType BOOL))))
      /\ (forall b,
             value = PyBool b ->
             init = Ok (mkEntry name (BoolWrapper b) (PyValueType BOOL)))
      /\ (Py.isinstance_list value = false ->
          Py.isinstance_bool value = false ->
          value_type <> PyValueType BOOL ->
          init = (t <- resolve_type value_type ;;
                  Ok (mkEntry name (ValueWrapper value) t))
          /\ (Py.isinstance_str value_type = false ->
              init = Ok (mkEntry name (ValueWrapper value) value_type))))
  /\ (exists entry,
         get "X" PyNone (after (set_ "X" (PyList [PyInt 1; PyInt 2; PyInt 3])))
         = inl entry
         /\ entry_value_type entry = PyValueType STRING
         /\ entry_value entry = PyList [PyInt 1; PyInt 2; PyInt 3]
         /\ entry_str entry = "X:STRING=1;2;3").
Proof.
  split.
  - intros c rest value value_type name init. subst name init.
    split; [|split; [|split]].
    + intros items ->. apply init_list.
    + intros L [B | ->]; apply init_bool; auto.
      * now rewrite B.
      * apply orb_true_r.
    + intros b ->. rewrite init_bool, cmake_bool_bool; reflexivity.
    + intros L B T.
      assert (E : Py.eq value_type (PyValueType BOOL) = false).
      { destruct (Py.eq value_type (PyValueType BOOL)) eqn:E; [|reflexivity].
        apply eq_BOOL in E. contradiction. }
      rewrite init_scalar by (auto; now rewrite B, E).
      split; [reflexivity|].
      now destruct value_type.
  - eexists. repeat split.
Qed.

(** C2 at one call of each kind. *)
Lemma entry_init_wraps_witness :
  CMakeCacheEntry_init (PyStr "X") (PyStr "ON") (PyValueType BOOL)
  = Ok (mkEntry "X" (BoolWrapper true) (PyValueType BOOL))
  /\ CMakeCacheEntry_init (PyStr "X") (PyInt 42) (PyStr "PATH")
     = Ok (mkEntry "X" (ValueWrapper (PyInt 42)) (PyValueType PATH))
  /\ CMakeCacheEntry_init (PyStr "X") (PyInt 42) PyNone
     = Ok (mkEntry "X" (ValueWrapper (PyInt 42)) PyNone).
Proof.
  pose proof (proj1 entry_init_wraps) as W.
  split; [|split].
  - destruct (W "X"%char "" (PyStr "ON") (PyValueType BOOL)) as (_ & B & _).
    exact (B eq_refl (or_intror eq_refl)).
  - destruct (W "X"%char "" (PyInt 42) (PyStr "PATH")) as (_ & _ & _ & S).
    destruct (S eq_refl eq_refl) as [S1 _]; [discriminate | exact S1].
  - destruct (W "X"%char "" (PyInt 42) PyNone) as (_ & _ & _ & S).
    destruct (S eq_refl eq_refl) as [_ S2]; [discriminate | exact (S2 eq_refl)].
Defined.

(** C9.  A type given as the text [BOOL] does not force a Bool: a value
    that is neither a list nor a bool is wrapped as a scalar, unchecked by
    the classifier, and the text is then resolved to the BOOL member.
    [set("X", "1", "BOOL")] renders as [X:BOOL=1], while the same call with
    the BOOL member renders as [X:BOOL=TRUE]; the text [maybe] is accepted
    with the text [BOOL] and rejected with the member. *)
Theorem text_BOOL_keeps_scalar :
  (forall (c : ascii) (rest : string) (value : pyval),
      Py.isinstance_list value = false ->
      Py.isinstance_bool value = false ->
      CMakeCacheEntry_init (PyStr (String c rest)) value (PyStr "BOOL")
      = Ok (mkEntry (String c rest) (ValueWrapper value) (PyValueType BOOL)))
  /\ (exists entry,
         get "X" PyNone (after (set (PyStr "X") (PyStr "1") (PyStr "BOOL")))
         = inl entry
         /\ entry_str entry = "X:BOOL=1"
         /\ entry_str entry <> "X:BOOL=TRUE")
  /\ (exists entry,
         get "X" PyNone (after (set (PyStr "X") (PyStr "1") (PyValueType BOOL)))
         = inl entry
         /\ entry_str entry = "X:BOOL=TRUE")
  /\ CMakeCacheEntry_init (PyStr "X") (PyStr "maybe") (PyStr "BOOL")
     = Ok (mkEntry "X" (ValueWrapper (PyStr "maybe")) (PyValueType BOOL))
  /\ CMakeCacheEntry_init (PyStr "X") (PyStr "maybe") (PyValueType BOOL)
     = Raise (ValueError (Invalid_bool_value (PyStr "maybe"))).
Proof.
  split; [|split; [|split; [|split]]].
  - intros c rest value L B. rewrite init_scalar; auto.
    now rewrite B.
  - eexists. split; [reflexivity|]. split; [reflexivity | discriminate].
  - eexists. split; reflexivity.
  - reflexivity.
  - reflexivity.
Qed.

Lemma text_BOOL_keeps_scalar_witness :
  CMakeCacheEntry_init (PyStr "X") (PyStr "1") (PyStr "BOOL")
  = Ok (mkEntry "X" (ValueWrapper (PyStr "1")) (PyValueType BOOL)).
Proof.
  exact (proj1 text_BOOL_keeps_scalar "X"%char "" (PyStr "1") eq_refl eq_refl).
Defined.

Lemma init_not_list_error (name value value_type : pyval) (e : exn) :
  CMakeCacheEntry_init name value value_type = Raise e -> ~ InvalidListValue e.
Proof.
  intros H [v ->].
  destruct name as [ | | | | text | | | | ]; try discriminate.
  destruct text as [|c rest]; [discriminate|].
  destruct (Py.isinstance_list value) eqn:L.
  - destruct value; try discriminate L. rewrite init_list in H. discriminate H.
  - destruct (Py.isinstance_bool value || Py.eq value_type (PyValueType BOOL)) eqn:B.
    + rewrite (init_bool _ _ _ _ L B) in H. unfold _cmake_bool in H.
      destruct (_is_truthy value); [discriminate|].
      destruct (_is_falsey value); discriminate.
    + rewrite (init_scalar _ _ _ _ L B) in H.
      destruct value_type; cbn [resolve_type bind] in H; try discriminate H.
      destruct (from_name s) eqn:F; cbn [bind] in H; [discriminate H|].
      apply from_name_error in F. congruence.
Qed.

Lemma init_not_list_wrapper (name value value_type : pyval) (entry : CMakeCacheEntry) :
  Py.isinstance_list value = false ->
  CMakeCacheEntry_init name value value_type = Ok entry ->
  type (_value_wrapper entry) = _ValueWrapper
  \/ type (_value_wrapper entry) = _BoolWrapper.
Proof.
  intros L H.
  destruct name as [ | | | | text | | | | ]; try discriminate.
  destruct text as [|c rest]; [discriminate|].
  destruct (Py.isinstance_bool value || Py.eq value_type (PyValueType BOOL)) eqn:B.
  - rewrite (init_bool _ _ _ _ L B) in H.
    destruct (_cmake_bool value); [|discriminate]. inversion H. now right.
  - rewrite (init_scalar _ _ _ _ L B) in H.
    destruct (resolve_type value_type); [|discriminate]. inversion H. now left.
Qed.

(** C10.  The constructor builds a List only from a list: for any other
    value, a tuple included, the entry it returns holds a scalar or a Bool,
    and no call of the constructor or of [set] raises the invalid-list
    error of the List wrapper. *)
Theorem list_only_from_list :
  (forall (name value value_type : pyval) (entry : CMakeCacheEntry),
      Py.isinstance_list value = false ->
      CMakeCacheEntry_init name value value_type = Ok entry ->
      (type (_value_wrapper entry) = _ValueWrapper
       \/ type (_value_wrapper entry) = _BoolWrapper)
      /\ type (_value_wrapper entry) <> _ListWrapper)
  /\ (forall (name value value_type : pyval) (e : exn),
         CMakeCacheEntry_init name value value_type = Raise e ->
         ~ InvalidListValue e)
  /\ (forall (name value value_type : pyval) (cache : CMakeCache) (e : exn),
         fst (set name value value_type cache) = Raise e ->
         ~ InvalidListValue e)
  /\ CMakeCacheEntry_init (PyStr "X") (PyTuple [PyInt 1; PyInt 2]) PyNone
     = Ok (mkEntry "X" (ValueWrapper (PyTuple [PyInt 1; PyInt 2])) PyNone)
  /\ (forall items, exists e,
         ListWrapper_init (PyTuple items) = Raise e /\ InvalidListValue e).
Proof.
  split; [|split; [|split; [|split]]].
  - intros name value value_type entry L H.
    pose proof (init_not_list_wrapper _ _ _ L H) as W.
    split; [exact W|]. destruct W as [W | W]; rewrite W; discriminate.
  - exact init_not_list_error.
  - intros name value value_type cache e. unfold set.
    destruct (CMakeCacheEntry_init name value value_type) eqn:I; [discriminate|].
    cbn. intros E. inversion E. subst. exact (init_not_list_error _ _ _ I).
  - reflexivity.
  - intros items. eexists. split; [reflexivity|]. eexists. reflexivity.
Qed.

Lemma list_only_from_list_witness :
  type (ValueWrapper (PyTuple [PyInt 1; PyInt 2])) <> _ListWrapper.
Proof.
  exact (proj2 (proj1 list_only_from_list
                  (PyStr "X") (PyTuple [PyInt 1; PyInt 2]) PyNone
                  (mkEntry "X" (ValueWrapper (PyTuple [PyInt 1; PyInt 2])) PyNone)
                  eq_refl eq_refl)).
Defined.

(** C3.  An entry renders as its name, [=] and the text of its value when
    it has no type, and with [:] and the type's text after the name
    otherwise (a registry member renders as its name); a Bool renders as
    [TRUE] or [FALSE], a List as the texts of its items joined by [;], the
    empty list as the empty text; [args] is [-D] followed by the entry's
    text, entry by entry in iteration order; the four calls of the example
    give the four arguments stated. *)
Theorem entries_render :
  (forall entry : CMakeCacheEntry,
      (entry_value_type entry = PyNone ->
       entry_str entry = entry_name entry ++ "=" ++ wrapper_str (_value_wrapper entry))
      /\ (entry_value_type entry <> PyNone ->
          entry_str entry
          = entry_name entry ++ ":" ++ Py.text_type (entry_value_type entry)
              ++ "=" ++ wrapper_str (_value_wrapper entry)))
  /\ (forall member : CMakeValueType,
         Py.text_type (PyValueType member) = vt_name member)
  /\ (forall b : bool, wrapper_str (BoolWrapper b) = if b then "TRUE" else "FALSE")
  /\ (forall items : list pyval,
         wrapper_str (ListWrapper items)
         = String.concat ";" (map Py.text_type items))
  /\ wrapper_str (ListWrapper []) = ""
  /\ (forall cache : CMakeCache,
         args cache = map (fun entry => "-D" ++ entry_str entry) (cache_iter cache))
  /\ args (after (set_ "FOO" (PyBool false)
                  >> set_ "BAR" (PyStr "Foo")
                  >> set_ "BAZ" (PyInt 42)
                  >> set_ "QUX" (PyList [PyStr "A"; PyStr "B"; PyStr "C"])))
     = ["-DFOO:BOOL=FALSE"; "-DBAR=Foo"; "-DBAZ=42"; "-DQUX:STRING=A;B;C"].
Proof.
  split; [|split; [|split; [|split; [|split; [|split]]]]]; try reflexivity.
  - intros [name w t]. unfold entry_str, entry_value_type, entry_name.
    cbn [_value_type _name _value_wrapper]. split.
    + now intros ->.
    + intros N. now destruct t.
  - now intros [|].
Qed.

Lemma entries_render_witness :
  entry_str (mkEntry "BAR" (ValueWrapper (PyStr "Foo")) PyNone) = "BAR=Foo"
  /\ entry_str (mkEntry "FOO" (BoolWrapper false) (PyValueType BOOL))
     = "FOO:BOOL=FALSE".
Proof.
  split.
  - exact (proj1 (proj1 entries_render
                    (mkEntry "BAR" (ValueWrapper (PyStr "Foo")) PyNone)) eq_refl).
  - refine (proj2 (proj1 entries_render
                     (mkEntry "FOO" (BoolWrapper false) (PyValueType BOOL))) _).
    discriminate.
Defined.

(* ====================================================================== *)
(** * The ordered dictionary *)

Section OrderedDictFacts.

Variable V : Type.
Implicit Types (d other : OrderedDict.t V) (key k : string) (v : V).

Lemma absent_iff (xs : list string) k : absent xs k = true <-> ~ In k xs.
Proof.
  unfold absent. rewrite negb_true_iff, <- not_true_iff_false, existsb_exists.
  split; intros H I; apply H.
  - exists k. split; [exact I | apply String.eqb_refl].
  - destruct I as [x [I E]]. apply String.eqb_eq in E. now subst.
Qed.

Lemma lookup_None d key :
  OrderedDict.lookup d key = None <-> ~ In key (OrderedDict.keys d).
Proof.
  induction d as [|[k v] d IH]; simpl; [tauto|].
  destruct (String.eqb k key) eqn:E.
  - apply String.eqb_eq in E. split; [discriminate | tauto].
  - apply String.eqb_neq in E. rewrite IH. tauto.
Qed.

Lemma contains_keys d key :
  OrderedDict.contains d key = true <-> In key (OrderedDict.keys d).
Proof.
  unfold OrderedDict.contains.
  destruct (OrderedDict.lookup d key) eqn:L.
  - split; [intros _ | reflexivity].
    destruct (in_dec string_dec key (OrderedDict.keys d)) as [I | N]; [exact I|].
    apply lookup_None in N. congruence.
  - apply lookup_None in L. split; [discriminate | contradiction].
Qed.

Lemma contains_false d key :
  OrderedDict.contains d key = false <-> ~ In key (OrderedDict.keys d).
Proof. rewrite <- contains_keys. now destruct (OrderedDict.contains d key). Qed.

(** *** [d[key] = v] *)

Lemma keys_setitem d key v :
  OrderedDict.keys (OrderedDict.setitem d key v)
  = if OrderedDict.contains d key then OrderedDict.keys d
    else (OrderedDict.keys d ++ [key])%list.
Proof.
  unfold OrderedDict.contains.
  induction d as [|[k w] d IH]; simpl; [reflexivity|].
  destruct (String.eqb k key) eqn:E; simpl; [reflexivity|].
  rewrite IH. now destruct (OrderedDict.lookup d key).
Qed.

Lemma lookup_setitem d key v :
  OrderedDict.lookup (OrderedDict.setitem d key v) key = Some v.
Proof.
  induction d as [|[k w] d IH]; simpl.
  - now rewrite String.eqb_refl.
  - destruct (String.eqb k key) eqn:E; simpl; now rewrite E.
Qed.

Lemma lookup_setitem_other d key v k :
  k <> key ->
  OrderedDict.lookup (OrderedDict.setitem d key v) k = OrderedDict.lookup d k.
Proof.
  intros N. induction d as [|[k' w] d IH]; simpl.
  - destruct (String.eqb key k) eqn:E; [|reflexivity].
    apply String.eqb_eq in E. congruence.
  - destruct (String.eqb k' key) eqn:E; simpl.
    + apply String.eqb_eq in E. subst k'.
      destruct (String.eqb key k) eqn:E'; [|reflexivity].
      apply String.eqb_eq in E'. congruence.
    + now rewrite IH.
Qed.

Lemma NoDup_setitem d key v :
  NoDup (OrderedDict.keys d) ->
  NoDup (OrderedDict.keys (OrderedDict.setitem d key v)).
Proof.
  intros H. rewrite keys_setitem.
  destruct (OrderedDict.contains d key) eqn:C; [exact H|].
  apply contains_false in C. apply NoDup_app; [exact H | repeat constructor; easy|].
  intros x I [<- | []]. contradiction.
Qed.

Lemma Forall_setitem (P : string * V -> Prop) d key v :
  Forall P d -> P (key, v) -> Forall P (OrderedDict.setitem d key v).
Proof.
  intros H Hkv. induction H as [|[k w] d Hk Hd IH]; simpl.
  - now constructor.
  - destruct (String.eqb k key) eqn:E.
    + apply String.eqb_eq in E. subst k. now constructor.
    + now constructor.
Qed.

Lemma setitem_new d key v :
  ~ In key (OrderedDict.keys d) -> OrderedDict.setitem d key v = (d ++ [(key, v)])%list.
Proof.
  induction d as [|[k w] d IH]; simpl; [reflexivity|].
  intros N. destruct (String.eqb k key) eqn:E.
  - apply String.eqb_eq in E. tauto.
  - rewrite IH by tauto. reflexivity.
Qed.

(** *** [d.pop(key)] *)

Lemma remove_absent d key :
  ~ In key (OrderedDict.keys d) -> OrderedDict.remove d key = d.
Proof.
  induction d as [|[k w] d IH]; simpl; [reflexivity|].
  intros N. destruct (String.eqb k key) eqn:E.
  - apply String.eqb_eq in E. tauto.
  - rewrite IH by tauto. reflexivity.
Qed.

Lemma remove_setitem d key v :
  OrderedDict.remove (OrderedDict.setitem d key v) key = OrderedDict.remove d key.
Proof.
  induction d as [|[k w] d IH]; simpl.
  - now rewrite String.eqb_refl.
  - destruct (String.eqb k key) eqn:E; simpl; rewrite E; [reflexivity|].
    now rewrite IH.
Qed.

Lemma keys_remove d key :
  NoDup (OrderedDict.keys d) ->
  OrderedDict.keys (OrderedDict.remove d key)
  = filter (fun k => negb (String.eqb k key)) (OrderedDict.keys d).
Proof.
  induction d as [|[k w] d IH]; simpl; [reflexivity|].
  intros H. inversion H as [|? ? Hk Hd]. subst.
  destruct (String.eqb k key) eqn:E; simpl.
  - apply String.eqb_eq in E. subst k.
    rewrite <- IH by exact Hd. f_equal. symmetry. now apply remove_absent.
  - now rewrite IH.
Qed.

Lemma lookup_remove_other d key k :
  k <> key ->
  OrderedDict.lookup (OrderedDict.remove d key) k = OrderedDict.lookup d k.
Proof.
  intros N. induction d as [|[k' w] d IH]; simpl; [reflexivity|].
  destruct (String.eqb k' key) eqn:E; simpl.
  - apply String.eqb_eq in E. subst k'.
    destruct (String.eqb key k) eqn:E'; [|reflexivity].
    apply String.eqb_eq in E'. congruence.
  - now rewrite IH.
Qed.

Lemma lookup_remove d key :
  NoDup (OrderedDict.keys d) ->
  OrderedDict.lookup (OrderedDict.remove d key) key = None.
Proof.
  intros H. apply lookup_None. rewrite keys_remove by exact H.
  rewrite filter_In, String.eqb_refl. intros [_ F]. discriminate F.
Qed.

Lemma NoDup_remove_key d key :
  NoDup (OrderedDict.keys d) ->
  NoDup (OrderedDict.keys (OrderedDict.remove d key)).
Proof.
  intros H. rewrite keys_remove by exact H. now apply NoDup_filter.
Qed.

Lemma Forall_remove (P : string * V -> Prop) d key :
  Forall P d -> Forall P (OrderedDict.remove d key).
Proof.
  induction 1 as [|[k w] d Hk Hd IH]; simpl; [constructor|].
  destruct (String.eqb k key); [exact Hd | now constructor].
Qed.

(** *** [d.update(other)] *)

Lemma update_cons d k v other :
  OrderedDict.update d ((k, v) :: other)
  = OrderedDict.update (OrderedDict.setitem d k v) other.
Proof. reflexivity. Qed.

Lemma keys_update other :
  NoDup (OrderedDict.keys other) ->
  forall d,
    OrderedDict.keys (OrderedDict.update d other)
    = (OrderedDict.keys d
         ++ filter (absent (OrderedDict.keys d)) (OrderedDict.keys other))%list.
Proof.
  induction other as [|[k v] other IH]; intros H d.
  - simpl. now rewrite app_nil_r.
  - inversion H as [|? ? Hk Hother]. subst.
    rewrite update_cons, (IH Hother), keys_setitem. simpl.
    destruct (OrderedDict.contains d k) eqn:C.
    + apply contains_keys in C.
      destruct (absent (OrderedDict.keys d) k) eqn:A; [|reflexivity].
      apply absent_iff in A. contradiction.
    + apply contains_false in C. apply absent_iff in C. rewrite C.
      rewrite <- app_assoc. simpl. do 2 f_equal.
      apply filter_ext_in. intros x I. unfold absent.
      rewrite existsb_app. simpl. rewrite orb_false_r.
      destruct (String.eqb x k) eqn:E; [|now rewrite orb_false_r].
      apply String.eqb_eq in E. subst x. contradiction.
Qed.

Lemma lookup_update other :
  NoDup (OrderedDict.keys other) ->
  forall d key,
    OrderedDict.lookup (OrderedDict.update d other) key
    = match OrderedDict.lookup other key with
      | Some v => Some v
      | None => OrderedDict.lookup d key
      end.
Proof.
  induction other as [|[k v] other IH]; intros H d key; [reflexivity|].
  inversion H as [|? ? Hk Hother]. subst.
  rewrite update_cons, (IH Hother). simpl.
  destruct (String.eqb k key) eqn:E.
  - apply String.eqb_eq in E. subst k.
    apply lookup_None in Hk. rewrite Hk. apply lookup_setitem.
  - apply String.eqb_neq in E.
    rewrite lookup_setitem_other by congruence. reflexivity.
Qed.

Lemma NoDup_update other :
  forall d,
    NoDup (OrderedDict.keys d) ->
    NoDup (OrderedDict.keys (OrderedDict.update d other)).
Proof.
  induction other as [|[k v] other IH]; intros d H; [exact H|].
  rewrite update_cons. apply IH. now apply NoDup_setitem.
Qed.

Lemma Forall_update (P : string * V -> Prop) other :
  Forall P other ->
  forall d, Forall P d -> Forall P (OrderedDict.update d other).
Proof.
  induction 1 as [|[k v] other Hk Hother IH]; intros d H; [exact H|].
  rewrite update_cons. apply IH. now apply Forall_setitem.
Qed.

Lemma update_disjoint other :
  NoDup (OrderedDict.keys other) ->
  forall d,
    (forall k, In k (OrderedDict.keys other) -> ~ In k (OrderedDict.keys d)) ->
    OrderedDict.update d other = (d ++ other)%list.
Proof.
  induction other as [|[k v] other IH]; intros H d D.
  - simpl. now rewrite app_nil_r.
  - inversion H as [|? ? Hk Hother]. subst.
    rewrite update_cons, setitem_new by (apply D; now left).
    rewrite (IH Hother).
    + now rewrite <- app_assoc.
    + intros x I. unfold OrderedDict.keys. rewrite map_app, in_app_iff.
      simpl. intros [J | [<- | []]]; [|contradiction].
      apply (D x); [now right | exact J].
Qed.

Lemma update_empty other :
  NoDup (OrderedDict.keys other) ->
  OrderedDict.update (OrderedDict.empty V) other = other.
Proof.
  intros H. rewrite update_disjoint; auto.
Qed.

End OrderedDictFacts.

(* ====================================================================== *)
(** * The cache *)

Lemma well_formed_init : well_formed CMakeCache_init.
Proof. split; constructor. Qed.

(** What a call of [set] that returns has done. *)
Lemma set_returns (name value value_type : pyval) (cache cache' : CMakeCache) :
  set name value value_type cache = (Ok tt, cache') ->
  exists entry,
    CMakeCacheEntry_init name value value_type = Ok entry
    /\ name = PyStr (_name entry)
    /\ cache' = mkCache (OrderedDict.setitem (_entries cache) (_name entry) entry).
Proof.
  unfold set.
  destruct (CMakeCacheEntry_init name value value_type) as [entry|] eqn:I;
    [|discriminate].
  intros E. inversion E. exists entry.
  split; [reflexivity|]. split; [|reflexivity].
  now apply init_name in I.
Qed.

(** What a call of [set] that raises has done: nothing. *)
Lemma set_raises (name value value_type : pyval) (cache cache' : CMakeCache) (e : exn) :
  set name value value_type cache = (Raise e, cache') ->
  CMakeCacheEntry_init name value value_type = Raise e /\ cache' = cache.
Proof.
  unfold set.
  destruct (CMakeCacheEntry_init name value value_type); [discriminate|].
  intros E. now inversion E.
Qed.

Lemma unset_present (name : string) (cache : CMakeCache) :
  cache_contains cache name = true ->
  unset name cache = (Ok tt, mkCache (OrderedDict.remove (_entries cache) name)).
Proof.
  unfold cache_contains, OrderedDict.contains, unset, OrderedDict.pop.
  now destruct (OrderedDict.lookup (_entries cache) name).
Qed.

Lemma unset_absent (name : string) (cache : CMakeCache) :
  cache_contains cache name = false ->
  unset name cache = (Raise (KeyError name), cache).
Proof.
  unfold cache_contains, OrderedDict.contains, unset, OrderedDict.pop.
  destruct (OrderedDict.lookup (_entries cache) name); [discriminate|].
  now destruct cache.
Qed.

Lemma well_formed_set (cache : CMakeCache) (entry : CMakeCacheEntry) :
  well_formed cache ->
  well_formed (mkCache (OrderedDict.setitem (_entries cache) (_name entry) entry)).
Proof.
  intros [N F]. split.
  - now apply NoDup_setitem.
  - now apply Forall_setitem.
Qed.

Lemma well_formed_remove (cache : CMakeCache) (name : string) :
  well_formed cache ->
  well_formed (mkCache (OrderedDict.remove (_entries cache) name)).
Proof.
  intros [N F]. split.
  - now apply NoDup_remove_key.
  - now apply Forall_remove.
Qed.

Lemma well_formed_iadd (cache other : CMakeCache) :
  well_formed cache -> well_formed other -> well_formed (cache_iadd cache other).
Proof.
  intros [N F] [N' F']. split.
  - now apply NoDup_update.
  - now apply Forall_update.
Qed.

Lemma add_iadd (cache other : CMakeCache) :
  well_formed cache -> cache_add cache other = cache_iadd cache other.
Proof.
  intros [N _]. unfold cache_add, cache_iadd, CMakeCache_init.
  cbn [_entries]. now rewrite update_empty.
Qed.

(** C4.  The names of a cache iterate in the order of their first
    insertion, and every operation keeps that order: [set] on a name that is
    there replaces the entry where it stands, [set] on a new name appends
    it, [unset] takes one name out and leaves the others in place, [clear]
    leaves no name, and the merge of two caches has the names of the first in their order, followed
    by the names only the second has, in the second's order, each name
    holding the second's entry when the second has one.  No operation makes
    a name occur twice.  Merging [A, B, C] with a cache that sets [B] and
    adds [D] gives [A, B, C, D] and the second cache's [B]. *)
Theorem insertion_order_kept :
  (forall cache : CMakeCache,
      well_formed cache ->
      (forall name value value_type cache',
          set name value value_type cache = (Ok tt, cache') ->
          exists text entry,
            name = PyStr text
            /\ CMakeCacheEntry_init name value value_type = Ok entry
            /\ entry_of cache' text = Some entry
            /\ names cache'
               = (if cache_contains cache text then names cache
                  else (names cache ++ [text])%list)
            /\ (forall other, other <> text ->
                              entry_of cache' other = entry_of cache other)
            /\ well_formed cache')
      /\ (forall name cache',
             unset name cache = (Ok tt, cache') ->
             names cache'
             = filter (fun other => negb (String.eqb other name)) (names cache)
             /\ well_formed cache')
      /\ (forall other : CMakeCache,
             well_formed other ->
             let merged := cache_add cache other in
             names merged
             = (names cache ++ filter (absent (names cache)) (names other))%list
             /\ (forall name,
                    entry_of merged name
                    = match entry_of other name with
                      | Some entry => Some entry
                      | None => entry_of cache name
                      end)
             /\ cache_iadd cache other = merged
             /\ well_formed merged)
      /\ (names (snd (clear cache)) = [] /\ well_formed (snd (clear cache))))
  /\ well_formed CMakeCache_init
  /\ (let base :=
        after (set_ "A" (PyInt 1) >> set_ "B" (PyInt 2) >> set_ "C" (PyInt 3)) in
      let other := after (set_ "B" (PyInt 5) >> set_ "D" (PyInt 4)) in
      names base = ["A"; "B"; "C"]
      /\ names (cache_add base other) = ["A"; "B"; "C"; "D"]
      /\ entry_of (cache_add base other) "B" = entry_of other "B"
      /\ option_map entry_value (entry_of (cache_add base other) "B")
         = Some (PyInt 5)
      /\ names (snd (set_ "A" (PyInt 9) base)) = ["A"; "B"; "C"]
      /\ option_map entry_value (entry_of (snd (set_ "A" (PyInt 9) base)) "A")
         = Some (PyInt 9)).
Proof.
  split; [|split; [exact well_formed_init | repeat split]].
  intros cache WF. split; [|split; [|split]]; [| | |split; [reflexivity | exact well_formed_init]].
  - intros name value value_type cache' H.
    apply set_returns in H as (entry & I & -> & ->).
    exists (_name entry), entry. split; [reflexivity|]. split; [exact I|].
    unfold entry_of, names, cache_contains. cbn [_entries].
    split; [apply lookup_setitem|].
    split; [apply keys_setitem|].
    split; [intros other N; now apply lookup_setitem_other|].
    now apply well_formed_set.
  - intros name cache' H.
    destruct (cache_contains cache name) eqn:C.
    + rewrite (unset_present _ _ C) in H. inversion H. subst cache'.
      split; [|now apply well_formed_remove].
      unfold names. cbn [_entries]. apply keys_remove. apply WF.
    + rewrite (unset_absent _ _ C) in H. discriminate H.
  - intros other WF' merged. subst merged.
    rewrite (add_iadd _ WF).
    unfold names, entry_of, cache_iadd. cbn [_entries].
    split; [apply keys_update; apply WF'|].
    split; [intros name; apply lookup_update; apply WF'|].
    split; [reflexivity|].
    now apply well_formed_iadd.
Qed.

Lemma insertion_order_kept_witness :
  names (after (set_ "A" (PyInt 1) >> set_ "A" (PyInt 2))) = ["A"]
  /\ names (cache_add (after (set_ "A" (PyInt 1))) (after (set_ "B" (PyInt 2))))
     = ["A"; "B"].
Proof.
  assert (WA : well_formed (after (set_ "A" (PyInt 1))))
    by (split; repeat constructor; simpl; tauto).
  assert (WB : well_formed (after (set_ "B" (PyInt 2))))
    by (split; repeat constructor; simpl; tauto).
  destruct (proj1 insertion_order_kept _ WA) as (S & _ & M & _).
  split.
  - destruct (S (PyStr "A") (PyInt 2) PyNone _ eq_refl)
      as (text & entry & N & _ & _ & O & _).
    inversion N. subst text. exact O.
  - exact (proj1 (M _ WB)).
Defined.

(** C7.  [unset] raises the not-found error, and leaves the cache as it
    was, exactly when the name has no entry; otherwise it returns and the
    name is gone while every other name keeps its entry.  After [set] and
    then [unset] of a name, [get] of the name gives the default, a second
    [unset] raises the not-found error, every other name is as before, and
    the cache is the very cache from before the [set] when the name was not
    in it.  [get] always returns: the entry when there is one, the default
    otherwise. *)
Theorem unset_undoes_set :
  (forall cache : CMakeCache,
      well_formed cache ->
      (forall name,
          (cache_contains cache name = false ->
           unset name cache = (Raise (KeyError name), cache)
           /\ NotFound (KeyError name))
          /\ (cache_contains cache name = true ->
              exists cache',
                unset name cache = (Ok tt, cache')
                /\ cache_contains cache' name = false
                /\ (forall other, other <> name ->
                                  entry_of cache' other = entry_of cache other))
          /\ ((exists e cache', unset name cache = (Raise e, cache'))
              <-> cache_contains cache name = false))
      /\ (forall name value value_type cache1,
             set (PyStr name) value value_type cache = (Ok tt, cache1) ->
             exists cache2,
               unset name cache1 = (Ok tt, cache2)
               /\ (forall default, get name default cache2 = inr default)
               /\ unset name cache2 = (Raise (KeyError name), cache2)
               /\ (forall other, other <> name ->
                                 entry_of cache2 other = entry_of cache other)
               /\ (cache_contains cache name = false -> cache2 = cache)))
  /\ (forall (cache : CMakeCache) (name : string) (default : pyval),
         get name default cache
         = match entry_of cache name with
           | Some entry => inl entry
           | None => inr default
           end).
Proof.
  split; [|reflexivity].
  intros cache WF.
  assert (Gone : forall name,
             cache_contains (mkCache (OrderedDict.remove (_entries cache) name)) name
             = false).
  { intros name. unfold cache_contains, OrderedDict.contains. cbn [_entries].
    rewrite lookup_remove; [reflexivity | apply WF]. }
  split.
  - intros name. split; [|split].
    + intros C. split; [now apply unset_absent | now exists name].
    + intros C. eexists. split; [now apply unset_present|].
      split; [apply Gone|].
      intros other N. unfold entry_of. cbn [_entries].
      now apply lookup_remove_other.
    + split.
      * intros (e & cache' & H).
        destruct (cache_contains cache name) eqn:C; [|reflexivity].
        rewrite (unset_present _ _ C) in H. discriminate H.
      * intros C. eexists. eexists. now apply unset_absent.
  - intros name value value_type cache1 H.
    apply set_returns in H as (entry & _ & N & ->).
    inversion N as [N']. rewrite <- N'.
    assert (C1 : cache_contains
                   (mkCache (OrderedDict.setitem (_entries cache) name entry)) name
                 = true).
    { unfold cache_contains, OrderedDict.contains. cbn [_entries].
      now rewrite lookup_setitem. }
    eexists. split; [now apply unset_present|].
    cbn [_entries]. rewrite remove_setitem.
    split; [|split; [|split]].
    + intros default. unfold get, OrderedDict.get. cbn [_entries].
      rewrite lookup_remove; [reflexivity | apply WF].
    + apply unset_absent, Gone.
    + intros other O. unfold entry_of. cbn [_entries].
      now apply lookup_remove_other.
    + intros C. unfold cache_contains in C. apply contains_false in C.
      rewrite remove_absent by exact C. now destruct cache.
Qed.

Lemma unset_undoes_set_witness :
  exists cache2,
    unset "FOO" (after (set_ "FOO" (PyInt 0))) = (Ok tt, cache2)
    /\ (forall default, get "FOO" default cache2 = inr default)
    /\ unset "FOO" cache2 = (Raise (KeyError "FOO"), cache2).
Proof.
  destruct (proj2 (proj1 unset_undoes_set _ well_formed_init)
              "FOO" (PyInt 0) PyNone _ eq_refl)
    as (cache2 & U & G & U2 & _).
  exists cache2. split; [exact U|]. split; [exact G | exact U2].
Defined.

Lemma init_error_kinds (name value value_type : pyval) (e : exn) :
  CMakeCacheEntry_init name value value_type = Raise e ->
  InvalidName e \/ InvalidBoolean e \/ UnknownType e.
Proof.
  intros H.
  destruct name as [ | | | | text | | | | ];
    try (inversion H; left; left; eexists; reflexivity).
  destruct text as [|c rest]; [inversion H; left; now right|].
  destruct (Py.isinstance_list value) eqn:L.
  - destruct value; try discriminate L. rewrite init_list in H. discriminate H.
  - destruct (Py.isinstance_bool value || Py.eq value_type (PyValueType BOOL)) eqn:B.
    + rewrite (init_bool _ _ _ _ L B) in H.
      destruct (_cmake_bool value) eqn:C; [discriminate H|].
      cbn [bind] in H. inversion H. subst. right. left.
      apply cmake_bool_error in C. eexists. exact C.
    + rewrite (init_scalar _ _ _ _ L B) in H.
      destruct value_type; cbn [resolve_type bind] in H; try discriminate H.
      destruct (from_name s) eqn:F; cbn [bind] in H; [discriminate H|].
      apply from_name_error in F. inversion H. subst. right. right.
      eexists. reflexivity.
Qed.

(** C8.  A call of [set] whose entry construction raises leaves the cache
    exactly as it was, and raises what the constructor raised: the
    invalid-name error for a name that is not text or is empty, the
    invalid-boolean error for a value the classifier rejects where a Bool
    is forced, the unknown-type error for a type name outside the
    registry; [set] raises in no other way. *)
Theorem failed_set_changes_nothing :
  forall (cache : CMakeCache) (name value value_type : pyval),
    (forall e,
        CMakeCacheEntry_init name value value_type = Raise e ->
        set name value value_type cache = (Raise e, cache))
    /\ (forall e cache',
           set name value value_type cache = (Raise e, cache') ->
           cache' = cache
           /\ CMakeCacheEntry_init name value value_type = Raise e
           /\ (InvalidName e \/ InvalidBoolean e \/ UnknownType e))
    /\ (Py.isinstance_str name = false ->
        set name value value_type cache
        = (Raise (ValueError (Invalid_name_type name)), cache))
    /\ (name = PyStr "" ->
        set name value value_type cache = (Raise (ValueError Empty_name), cache))
    /\ (forall c rest e,
           name = PyStr (String c rest) ->
           Py.isinstance_list value = false ->
           Py.isinstance_bool value = true \/ value_type = PyValueType BOOL ->
           _cmake_bool value = Raise e ->
           set name value value_type cache = (Raise e, cache)
           /\ InvalidBoolean e)
    /\ (forall c rest type_name e,
           name = PyStr (String c rest) ->
           Py.isinstance_list value = false ->
           Py.isinstance_bool value = false ->
           value_type = PyStr type_name ->
           from_name type_name = Raise e ->
           set name value value_type cache = (Raise e, cache)
           /\ UnknownType e).
Proof.
  intros cache name value value_type.
  assert (Fail : forall e,
             CMakeCacheEntry_init name value value_type = Raise e ->
             set name value value_type cache = (Raise e, cache))
    by (intros e I; unfold set; now rewrite I).
  split; [exact Fail|]. split; [|split; [|split; [|split]]].
  - intros e cache' H. apply set_raises in H as [I ->].
    split; [reflexivity|]. split; [exact I|]. exact (init_error_kinds _ _ _ I).
  - intros N. apply Fail. now destruct name.
  - intros ->. now apply Fail.
  - intros c rest e -> L B C. split.
    + apply Fail. rewrite init_bool, C; auto.
      destruct B as [B | ->]; [now rewrite B | apply orb_true_r].
    + apply cmake_bool_error in C. eexists. exact C.
  - intros c rest type_name e -> L B -> F. split.
    + apply Fail. rewrite init_scalar; auto.
      * cbn [resolve_type]. now rewrite F.
      * now rewrite B.
    + apply from_name_error in F. eexists. exact F.
Qed.

Lemma failed_set_changes_nothing_witness :
  let cache := after (set_ "FOO" (PyInt 0)) in
  set (PyInt 1) (PyStr "VALUE") PyNone cache
  = (Raise (ValueError (Invalid_name_type (PyInt 1))), cache)
  /\ set (PyStr "") (PyStr "VALUE") PyNone cache
     = (Raise (ValueError Empty_name), cache)
  /\ set (PyStr "FOO") (PyStr "maybe") (PyValueType BOOL) cache
     = (Raise (ValueError (Invalid_bool_value (PyStr "maybe"))), cache)
  /\ set (PyStr "FOO") (PyStr "VALUE") (PyStr "INVALID_TYPE") cache
     = (Raise (ValueError (Unknown_value_type "INVALID_TYPE")), cache).
Proof.
  intros cache.
  split; [|split; [|split]].
  - exact (proj1 (proj2 (proj2
             (failed_set_changes_nothing cache (PyInt 1) (PyStr "VALUE") PyNone)))
             eq_refl).
  - exact (proj1 (proj2 (proj2 (proj2
             (failed_set_changes_nothing cache (PyStr "") (PyStr "VALUE") PyNone))))
             eq_refl).
  - exact (proj1 (proj1 (proj2 (proj2 (proj2 (proj2
             (failed_set_changes_nothing cache (PyStr "FOO") (PyStr "maybe")
                (PyValueType BOOL))))))
             "F"%char "OO" _ eq_refl eq_refl (or_intror eq_refl) eq_refl)).
  - exact (proj1 (proj2 (proj2 (proj2 (proj2 (proj2
             (failed_set_changes_nothing cache (PyStr "FOO") (PyStr "VALUE")
                (PyStr "INVALID_TYPE"))))))
             "F"%char "OO" "INVALID_TYPE" _ eq_refl eq_refl eq_refl eq_refl eq_refl)).
Defined.

(** C1 at the inputs of the test tables: [On] is truthy, a text that ends
    with [-NOTFOUND] is falsey, [None] is neither. *)
Lemma cmake_bool_classifies_witness :
  _cmake_bool (PyStr "On") = Ok true
  /\ _cmake_bool (PyStr "VARIABLE-NOTFOUND") = Ok false
  /\ InvalidBoolean (ValueError (Invalid_bool_value PyNone)).
Proof.
  split; [|split].
  - apply (proj1 (proj1 cmake_bool_classifies (PyStr "On") eq_refl)).
    left. simpl. tauto.
  - apply (proj1 (proj2 (proj1 cmake_bool_classifies (PyStr "VARIABLE-NOTFOUND") eq_refl))).
    right. right. now exists "VARIABLE".
  - exact (proj2 (proj2 (proj2 (proj1 cmake_bool_classifies PyNone eq_refl))) _ eq_refl).
Defined.

(* ====================================================================== *)
(** * The registry of value types *)

Lemma members_are : __members__ = [BOOL; FILEPATH; PATH; STRING; INTERNAL].
Proof. reflexivity. Qed.

(** X1.  [from_name] finds every member by its own name, returns only a
    member that carries the name asked for, and raises the unknown-type
    error exactly for a name that is not one of the five, spelled as they
    are. *)
Theorem from_name_round_trip :
  (forall member, In member __members__ -> from_name (vt_name member) = Ok member)
  /\ (forall name member,
         from_name name = Ok member ->
         vt_name member = name /\ In member __members__)
  /\ (forall name,
         from_name name = Raise (ValueError (Unknown_value_type name))
         <-> ~ In name ["BOOL"; "FILEPATH"; "PATH"; "STRING"; "INTERNAL"])
  /\ (forall name, exists outcome,
         from_name name = outcome
         /\ (outcome = Ok (mkValueType name)
             \/ outcome = Raise (ValueError (Unknown_value_type name)))).
Proof.
  split; [|split; [|split]].
  - intros member. rewrite members_are. simpl.
    intros [<- | [<- | [<- | [<- | [<- | []]]]]]; reflexivity.
  - intros name member H. apply from_name_member in H as [-> I]. now split.
  - intros name. unfold from_name. rewrite members_are. split.
    + intros H [<- | [<- | [<- | [<- | [<- | []]]]]]; discriminate H.
    + intros N. cbn [find vt_name BOOL FILEPATH PATH STRING INTERNAL].
      repeat match goal with
             | |- context [String.eqb ?a name] =>
                 let E := fresh "E" in
                 destruct (String.eqb a name) eqn:E;
                 [apply String.eqb_eq in E; exfalso; apply N; rewrite <- E;
                  simpl; tauto|]
             end.
      reflexivity.
  - intros name. eexists. split; [reflexivity|].
    destruct (from_name name) as [member|e] eqn:F.
    + left. apply from_name_member in F as [-> _]. reflexivity.
    + right. apply from_name_error in F. now subst.
Qed.

Lemma from_name_round_trip_witness :
  from_name "PATH" = Ok PATH
  /\ from_name "path" = Raise (ValueError (Unknown_value_type "path")).
Proof.
  split.
  - apply (proj1 from_name_round_trip PATH). simpl. tauto.
  - apply (proj1 (proj2 (proj2 from_name_round_trip)) "path").
    simpl. intuition discriminate.
Defined.

(** Whether a name is registered, by the names of the members. *)
Lemma registered_iff (name : string) (members : list CMakeValueType) :
  existsb (ValueType_eq (mkValueType name)) members = true
  <-> In (mkValueType name) members.
Proof.
  rewrite existsb_exists. split.
  - intros ([n] & I & E). apply String.eqb_eq in E. cbn in E. now subst n.
  - intros I. exists (mkValueType name). split; [exact I|].
    apply String.eqb_refl.
Qed.

Lemma getattr_setattr (cls : ValueType_class) (name other : string)
  (member : CMakeValueType) :
  getattr (setattr cls name member) other
  = if String.eqb name other then Some member else getattr cls other.
Proof.
  unfold getattr, setattr. cbn [attributes find fst].
  now destruct (String.eqb name other).
Qed.

(** After the five registrations each name is bound to its member. *)
Lemma registered_attributes :
  Forall (fun member => getattr CMakeValueType_class (vt_name member) = Some member)
    __members__.
Proof. repeat constructor. Qed.

(** X2.  For a name in capital letters, [_register] leaves the class as
    it is when a member of that name is registered; otherwise it adds the
    member at the end of [__members__], binds the name to it as a class
    attribute and leaves every other attribute as it was.  Either way the
    name is registered afterwards, registering it again changes nothing,
    and no name comes to be registered twice. *)
Theorem register_once (name : string) (cls : ValueType_class) :
  constant_name name = true ->
  let member := mkValueType name in
  let cls' := _register name cls in
  (In member (members cls) -> cls' = cls)
  /\ (~ In member (members cls) ->
      members cls' = (members cls ++ [member])%list
      /\ getattr cls' name = Some member
      /\ (forall other, other <> name -> getattr cls' other = getattr cls other))
  /\ In member (members cls')
  /\ _register name cls' = cls'
  /\ (NoDup (members cls) -> NoDup (members cls')).
Proof.
  intros _ member cls'. subst member cls'. unfold _register. cbv zeta.
  destruct (existsb (ValueType_eq (mkValueType name)) (members cls)) eqn:E.
  - rewrite E. apply registered_iff in E.
    split; [reflexivity|]. split; [contradiction|]. auto.
  - assert (N : ~ In (mkValueType name) (members cls)).
    { intros I. apply registered_iff in I. congruence. }
    split; [contradiction|]. split; [|split; [|split]].
    + intros _. split; [reflexivity|]. split.
      * rewrite getattr_setattr. now rewrite String.eqb_refl.
      * intros other D. rewrite getattr_setattr.
        destruct (String.eqb name other) eqn:O; [|reflexivity].
        apply String.eqb_eq in O. congruence.
    + cbn [members setattr]. apply in_or_app. right. now left.
    + cbn [members setattr]. rewrite existsb_app. cbn [existsb].
      unfold ValueType_eq at 2. cbn [vt_name]. rewrite String.eqb_refl.
      now rewrite orb_true_r.
    + intros D. cbn [members setattr]. apply NoDup_app; [exact D | | ].
      * repeat constructor. intros [].
      * intros x I [<- | []]. contradiction.
Qed.

(** X2 at [BOOL], which is registered, and at [TEXT], which is not. *)
Lemma register_once_witness :
  constant_name "BOOL" = true
  /\ _register "BOOL" CMakeValueType_class = CMakeValueType_class
  /\ getattr (_register "TEXT" CMakeValueType_class) "TEXT"
     = Some (mkValueType "TEXT").
Proof.
  split; [reflexivity|]. split.
  - apply (proj1 (@register_once "BOOL" CMakeValueType_class eq_refl)).
    cbn. tauto.
  - apply (proj1 (proj2 (@register_once "TEXT" CMakeValueType_class eq_refl))).
    cbn. intuition discriminate.
Defined.

(* ====================================================================== *)
(** * Integers and their text *)

Lemma int_digits_uint (d : Decimal.uint) :
  forall acc,
    Py.int_digits (NilEmpty.string_of_uint d) acc Py.Digit = Some (uint_value d acc).
Proof.
  induction d; intros acc; cbn [NilEmpty.string_of_uint uint_value];
    try reflexivity; apply IHd.
Qed.

Lemma uint_value_spec (d : Decimal.uint) :
  forall acc,
    uint_value d acc
    = acc * 10 ^ Z.of_N (Unsigned.usize d)
      + Z.of_N (Unsigned.of_lu (Decimal.rev d)).
Proof.
  induction d; intros acc; cbn [uint_value Unsigned.usize];
    [cbn; lia | ..];
    rewrite IHd; unfold Decimal.rev; cbn [Decimal.revapp];
    rewrite (Unsigned.of_lu_revapp d (_ Decimal.Nil));
    rewrite N2Z.inj_add, N2Z.inj_mul, N2Z.inj_pow, N2Z.inj_succ;
    rewrite Z.pow_succ_r by apply N2Z.is_nonneg;
    cbn [Unsigned.of_lu]; unfold Decimal.rev; lia.
Qed.

Lemma uint_value_pos (p : positive) : uint_value (Pos.to_uint p) 0 = Z.pos p.
Proof.
  rewrite uint_value_spec, <- Unsigned.of_uint_alt, Unsigned.of_to. cbn. lia.
Qed.

Lemma digit_char (c : ascii) :
  Str.isdigit c = true ->
  Py.upper_char c = c /\ Py.is_space c = false
  /\ Ascii.eqb c "+" = false /\ Ascii.eqb c "-" = false
  /\ (exists d, Py.digit_of c = Some d).
Proof.
  destruct c as [[] [] [] [] [] [] [] []]; vm_compute; try discriminate;
    intros _; repeat split; eexists; reflexivity.
Qed.

Lemma uint_digits (d : Decimal.uint) :
  Py.all_chars Str.isdigit (NilEmpty.string_of_uint d) = true.
Proof.
  induction d; cbn [NilEmpty.string_of_uint Py.all_chars]; auto.
Qed.

Lemma upper_digits (s : string) :
  Py.all_chars Str.isdigit s = true -> Py.upper s = s.
Proof.
  induction s as [|c s IH]; simpl; [reflexivity|].
  intros H. apply andb_prop in H as [Hc Hs].
  now rewrite IH, (proj1 (digit_char c Hc)).
Qed.

Lemma strip_digits (s : string) :
  Py.all_chars Str.isdigit s = true -> Py.lstrip s = s /\ Py.rstrip s = s.
Proof.
  induction s as [|c s IH]; simpl; [auto|].
  intros H. apply andb_prop in H as [Hc Hs].
  destruct (digit_char c Hc) as (_ & S & _). rewrite S.
  split; [reflexivity|].
  destruct (IH Hs) as [_ ->]. now destruct s.
Qed.

(** [int] on a run of digits within the limit, plain and after a minus
    sign. *)
Lemma int_of_digits (s : string) :
  Py.all_chars Str.isdigit s = true ->
  Py.count_digits s <= Py.int_max_str_digits ->
  Py.int s = Py.int_digits s 0 Py.Nothing
  /\ Py.int (String "-" s) = option_map Z.opp (Py.int_digits s 0 Py.Nothing).
Proof.
  intros H Limit. destruct (strip_digits s H) as [L R].
  apply Z.ltb_ge in Limit. unfold Py.int. split.
  - rewrite Limit, L, R. destruct s as [|c s]; [reflexivity|].
    cbn [Py.all_chars] in H. apply andb_prop in H as [Hc _].
    destruct (digit_char c Hc) as (_ & _ & P & M & _).
    now rewrite P, M.
  - cbn [Py.count_digits]. change (Py.digit_of "-") with (@None Z). cbv iota.
    rewrite Limit.
    cbn [Py.lstrip]. change (Py.is_space "-") with false. cbv iota.
    cbn [Py.rstrip]. rewrite R. now destruct s.
Qed.

(** The decimal text of a number has as many digits as the number asks
    for: a positive number is at least the power of ten of its digits but
    one. *)
Lemma count_digits_uint (d : Decimal.uint) :
  Py.count_digits (NilEmpty.string_of_uint d) = Z.of_N (Unsigned.usize d).
Proof.
  induction d; cbn [NilEmpty.string_of_uint Py.count_digits Unsigned.usize];
    [reflexivity | ..];
    rewrite N2Z.inj_succ, <- IHd;
    match goal with
    | |- context [Py.digit_of ?c] =>
        let v := eval vm_compute in (Py.digit_of c) in
        change (Py.digit_of c) with v
    end; cbv iota; lia.
Qed.

Lemma to_uint_unorm (p : positive) :
  Decimal.unorm (Pos.to_uint p) = Pos.to_uint p.
Proof.
  rewrite <- Unsigned.to_of, Unsigned.of_to. reflexivity.
Qed.

Lemma uint_value_lower (d : Decimal.uint) :
  Decimal.unorm d = d -> d <> Decimal.zero ->
  10 ^ (Z.of_N (Unsigned.usize d) - 1) <= uint_value d 0.
Proof.
  intros U NZ.
  assert (Step : forall d' k, 1 <= k ->
             10 ^ (Z.of_N (N.succ (Unsigned.usize d')) - 1)
             <= uint_value d' (10 * 0 + k)).
  { intros d' k Hk. rewrite uint_value_spec, N2Z.inj_succ.
    replace (Z.succ (Z.of_N (Unsigned.usize d')) - 1)
      with (Z.of_N (Unsigned.usize d')) by lia.
    pose proof (Z.pow_pos_nonneg 10 (Z.of_N (Unsigned.usize d'))
                  ltac:(lia) (N2Z.is_nonneg _)) as P.
    pose proof (N2Z.is_nonneg (Unsigned.of_lu (Decimal.rev d'))) as Q.
    nia. }
  destruct d; cbn [Unsigned.usize uint_value]; try (apply Step; lia).
  - cbn in U. discriminate U.
  - exfalso. unfold Decimal.unorm in U. cbn [Decimal.nzhead] in U.
    destruct (Decimal.nzhead d) eqn:E; try discriminate U.
    + apply NZ. symmetry. exact U.
    + pose proof (DecimalFacts.nb_digits_nzhead d) as B.
      rewrite E, U in B. cbn [Decimal.nb_digits] in B. lia.
Qed.

Lemma usize_bound (p : positive) (limit : Z) :
  0 <= limit -> Z.pos p < 10 ^ limit ->
  Z.of_N (Unsigned.usize (Pos.to_uint p)) <= limit.
Proof.
  intros L B.
  pose proof (uint_value_lower (to_uint_unorm p) (Unsigned.to_uint_nonzero p)) as V.
  rewrite uint_value_pos in V.
  destruct (Z.le_gt_cases (Z.of_N (Unsigned.usize (Pos.to_uint p))) limit) as [|G];
    [assumption|].
  pose proof (Z.pow_le_mono_r 10 limit (Z.of_N (Unsigned.usize (Pos.to_uint p)) - 1)
                ltac:(lia) ltac:(lia)) as M.
  lia.
Qed.

Lemma int_digits_first (d : Decimal.uint) (acc : Z) (last : Py.seen) :
  d <> Decimal.Nil ->
  Py.int_digits (NilEmpty.string_of_uint d) acc last = Some (uint_value d acc).
Proof.
  destruct d; [contradiction|..]; intros _;
    cbn [NilEmpty.string_of_uint uint_value];
    rewrite <- int_digits_uint; reflexivity.
Qed.

(** Reading the text of an integer that is printed gives it back. *)
Lemma int_str_of_int (n : Z) :
  Z.abs n < 10 ^ Py.int_max_str_digits -> Py.int (Py.str_of_int n) = Some n.
Proof.
  intros B.
  destruct n as [|p|p]; [reflexivity|..];
    unfold Py.str_of_int, Z.to_int, NilZero.string_of_int, NilZero.string_of_uint;
    pose proof (Unsigned.to_uint_nonnil p) as N;
    pose proof (uint_digits (Pos.to_uint p)) as D;
    pose proof (uint_value_pos p) as V;
    pose proof (@usize_bound p Py.int_max_str_digits ltac:(discriminate) B) as U;
    rewrite <- count_digits_uint in U;
    destruct (int_of_digits _ D U) as [I J];
    replace (match Pos.to_uint p with Decimal.Nil => "0" | _ => _ end)
      with (NilEmpty.string_of_uint (Pos.to_uint p))
      by (destruct (Pos.to_uint p); [contradiction|reflexivity..]).
  - now rewrite I, int_digits_first, V.
  - cbn [append]. now rewrite J, int_digits_first, V.
Qed.

Lemma upper_str_of_int (n : Z) : Py.upper (Py.str_of_int n) = Py.str_of_int n.
Proof.
  destruct n as [|p|p]; [reflexivity|..];
    unfold Py.str_of_int, Z.to_int, NilZero.string_of_int, NilZero.string_of_uint;
    pose proof (uint_digits (Pos.to_uint p)) as D;
    pose proof (Unsigned.to_uint_nonnil p) as N;
    replace (match Pos.to_uint p with Decimal.Nil => "0" | _ => _ end)
      with (NilEmpty.string_of_uint (Pos.to_uint p))
      by (destruct (Pos.to_uint p); [contradiction|reflexivity..]).
  - now apply upper_digits.
  - cbn [append Py.upper]. now rewrite upper_digits.
Qed.

(** X3.  An integer that the interpreter prints, which is one of at most
    4300 digits, is read back from its text, so it is coerced to true
    exactly when it is not zero and is never rejected; a bool is coerced
    to itself. *)
Theorem cmake_bool_of_number :
  (forall n : Z,
      Z.abs n < 10 ^ Py.int_max_str_digits ->
      Py.int (Py.text_type (PyInt n)) = Some n
      /\ _cmake_bool (PyInt n) = Ok (negb (n =? 0)))
  /\ (forall b : bool, _cmake_bool (PyBool b) = Ok b).
Proof.
  split; [|exact cmake_bool_bool].
  intros n B. split; [exact (int_str_of_int n B)|].
  unfold _cmake_bool, _is_truthy, _is_falsey.
  cbn [Py.text_type Py.repr]. rewrite upper_str_of_int, (int_str_of_int n B).
  destruct n as [|p|p]; [reflexivity|..];
    now destruct (Py.contains _TRUTHY_VALUES _).
Qed.

(** X3 at 42 and at -7. *)
Lemma cmake_bool_of_number_witness :
  Z.abs 42 < 10 ^ Py.int_max_str_digits
  /\ _cmake_bool (PyInt 42) = Ok true
  /\ Py.int (Py.text_type (PyInt (-7))) = Some (-7).
Proof.
  assert (Small : forall n, Z.abs n < 10 ^ 2 -> Z.abs n < 10 ^ Py.int_max_str_digits).
  { intros n H. apply (Z.lt_le_trans _ _ _ H).
    apply Z.pow_le_mono_r; [reflexivity | discriminate]. }
  split; [apply Small; reflexivity|]. split.
  - exact (proj2 (proj1 cmake_bool_of_number 42 (Small 42 eq_refl))).
  - exact (proj1 (proj1 cmake_bool_of_number (-7) (Small (-7) eq_refl))).
Defined.

Lemma upper_char_twice (c : ascii) :
  Py.upper_char (Py.upper_char c) = Py.upper_char c.
Proof. destruct c as [[] [] [] [] [] [] [] []]; reflexivity. Qed.

Lemma upper_twice (s : string) : Py.upper (Py.upper s) = Py.upper s.
Proof.
  induction s as [|c s IH]; simpl; [reflexivity|].
  now rewrite upper_char_twice, IH.
Qed.

(** X4.  The classifier does not see the case of a text: a text and its
    uppercase form, and any two texts with the same uppercase form, are
    both truthy, both falsey or both rejected. *)
Theorem classifier_ignores_case :
  forall s t : string,
    Py.upper s = Py.upper t ->
    _is_truthy (PyStr s) = _is_truthy (PyStr t)
    /\ _is_falsey (PyStr s) = _is_falsey (PyStr t)
    /\ (forall b, _cmake_bool (PyStr s) = Ok b <-> _cmake_bool (PyStr t) = Ok b)
    /\ _is_truthy (PyStr (Py.upper s)) = _is_truthy (PyStr s)
    /\ _is_falsey (PyStr (Py.upper s)) = _is_falsey (PyStr s)
    /\ (forall b, _cmake_bool (PyStr (Py.upper s)) = Ok b
                  <-> _cmake_bool (PyStr s) = Ok b).
Proof.
  intros s t E.
  assert (T : forall a b, Py.upper a = Py.upper b ->
                          _is_truthy (PyStr a) = _is_truthy (PyStr b))
    by (intros a b H; unfold _is_truthy; cbn [Py.text_type]; now rewrite H).
  assert (F : forall a b, Py.upper a = Py.upper b ->
                          _is_falsey (PyStr a) = _is_falsey (PyStr b))
    by (intros a b H; unfold _is_falsey; cbn [Py.text_type]; now rewrite H).
  assert (B : forall a b, Py.upper a = Py.upper b ->
                          forall r, _cmake_bool (PyStr a) = Ok r
                                    <-> _cmake_bool (PyStr b) = Ok r).
  { intros a b H r. unfold _cmake_bool. rewrite (T a b H), (F a b H).
    destruct (_is_truthy (PyStr b)); [reflexivity|].
    destruct (_is_falsey (PyStr b)); [reflexivity|].
    split; discriminate. }
  pose proof (upper_twice s) as U.
  repeat split; auto; now apply B.
Qed.

Lemma classifier_ignores_case_witness :
  _is_truthy (PyStr "yes") = _is_truthy (PyStr "YeS").
Proof.
  exact (proj1 (classifier_ignores_case "yes" "YeS" eq_refl)).
Defined.

(** X5.  The text a Bool renders as is a text the classifier accepts, with
    the same truth value: building a Bool from the rendering of a Bool
    gives that Bool again, and the rendering is [TRUE] or [FALSE]. *)
Theorem bool_text_round_trip :
  forall (v : pyval) (w : wrapper),
    BoolWrapper_init v = Ok w ->
    BoolWrapper_init (PyStr (wrapper_str w)) = Ok w
    /\ (wrapper_str w = "TRUE" \/ wrapper_str w = "FALSE")
    /\ (exists b, w = BoolWrapper b /\ _cmake_bool v = Ok b).
Proof.
  intros v w. unfold BoolWrapper_init at 1.
  destruct (_cmake_bool v) as [b|] eqn:C; [|discriminate].
  cbn [bind]. intros E. inversion E. subst w.
  destruct b; (split; [reflexivity|]; split; [auto|]; now eexists).
Qed.

Lemma bool_text_round_trip_witness :
  BoolWrapper_init (PyStr "TRUE") = Ok (BoolWrapper true).
Proof.
  exact (proj1 (bool_text_round_trip (PyStr "on") (w := BoolWrapper true) eq_refl)).
Defined.

(* ====================================================================== *)
(** * More on the ordered dictionary *)

Section OrderedDictMore.

Variable V : Type.
Implicit Types (d other : OrderedDict.t V) (key k : string) (v : V).

Lemma length_setitem d key v :
  List.length (OrderedDict.setitem d key v)
  = if OrderedDict.contains d key then List.length d else S (List.length d).
Proof.
  unfold OrderedDict.contains.
  induction d as [|[k w] d IH]; simpl; [reflexivity|].
  destruct (String.eqb k key); simpl; [reflexivity|].
  rewrite IH. now destruct (OrderedDict.lookup d key).
Qed.

Lemma length_remove d key :
  OrderedDict.contains d key = true ->
  S (List.length (OrderedDict.remove d key)) = List.length d.
Proof.
  unfold OrderedDict.contains.
  induction d as [|[k w] d IH]; simpl; [discriminate|].
  destruct (String.eqb k key); simpl; [reflexivity|].
  intros H. now rewrite IH.
Qed.

(** Two dictionaries with the same keys in the same order and the same
    value under every key are the same. *)
Lemma dict_ext d :
  forall other,
    NoDup (OrderedDict.keys d) ->
    OrderedDict.keys d = OrderedDict.keys other ->
    (forall k, OrderedDict.lookup d k = OrderedDict.lookup other k) ->
    d = other.
Proof.
  induction d as [|[k v] d IH]; intros [|[k' v'] other] N K L;
    try discriminate K; [reflexivity|].
  simpl in K. inversion K as [[K1 K2]]. subst k'.
  inversion N as [|? ? Hk Hd]. subst.
  pose proof (L k) as Lk. simpl in Lk. rewrite String.eqb_refl in Lk.
  inversion Lk. subst v'. f_equal.
  apply IH; [exact Hd | exact K2|].
  intros x. destruct (String.eqb k x) eqn:E.
  - apply String.eqb_eq in E. subst x.
    assert (Hk' : ~ In k (OrderedDict.keys other)) by now rewrite <- K2.
    apply lookup_None in Hk. apply lookup_None in Hk'. congruence.
  - specialize (L x). simpl in L. now rewrite E in L.
Qed.

Lemma remove_filter d key :
  NoDup (OrderedDict.keys d) ->
  OrderedDict.remove d key
  = filter (fun item => negb (String.eqb (fst item) key)) d.
Proof.
  induction d as [|[k v] d IH]; simpl; [reflexivity|].
  intros N. inversion N as [|? ? Hk Hd]. subst.
  destruct (String.eqb k key) eqn:E; simpl.
  - apply String.eqb_eq in E. subst k.
    rewrite <- IH by exact Hd. symmetry. now apply remove_absent.
  - now rewrite IH.
Qed.

End OrderedDictMore.

Lemma absent_app (xs ys : list string) (x : string) :
  absent (xs ++ ys) x = absent xs x && absent ys x.
Proof. unfold absent. now rewrite existsb_app, negb_orb. Qed.

Lemma absent_filter (xs ys : list string) (x : string) :
  absent (filter (absent xs) ys) x = absent ys x || negb (absent xs x).
Proof.
  destruct (absent (filter (absent xs) ys) x) eqn:A.
  - apply absent_iff in A. rewrite filter_In in A.
    destruct (absent ys x) eqn:Y; [reflexivity|].
    destruct (absent xs x) eqn:X; [|reflexivity].
    exfalso. apply A. split; [|reflexivity].
    destruct (in_dec string_dec x ys) as [I | I]; [exact I|].
    apply absent_iff in I. congruence.
  - symmetry. apply orb_false_iff.
    assert (I : In x (filter (absent xs) ys)).
    { destruct (in_dec string_dec x (filter (absent xs) ys)) as [I | I]; [exact I|].
      apply absent_iff in I. congruence. }
    apply filter_In in I as [I X]. rewrite X. split; [|reflexivity].
    destruct (absent ys x) eqn:Y; [|reflexivity].
    apply absent_iff in Y. contradiction.
Qed.

(* ====================================================================== *)
(** * Reading the cache *)

Lemma names_length (cache : CMakeCache) :
  List.length (names cache) = cache_len cache.
Proof. unfold names, OrderedDict.keys, cache_len. apply length_map. Qed.

(** X7.  Subscripting a cache by a name gives the entry stored under it,
    and raises the key error exactly when [in] says the name is not there;
    it agrees with [get] wherever it returns.  After a [set] that returns,
    the name is in the cache and subscripting gives the entry the
    constructor built, whose name is the name set. *)
Theorem lookup_after_insert :
  (forall (cache : CMakeCache) (name : string),
      (cache_getitem name cache = Raise (KeyError name)
       <-> cache_contains cache name = false)
      /\ (forall entry default,
             cache_getitem name cache = Ok entry
             <-> get name default cache = inl entry)
      /\ (forall e, cache_getitem name cache = Raise e -> e = KeyError name))
  /\ (forall (cache cache' : CMakeCache) (name : string) (value value_type : pyval),
         set (PyStr name) value value_type cache = (Ok tt, cache') ->
         exists entry,
           CMakeCacheEntry_init (PyStr name) value value_type = Ok entry
           /\ cache_getitem name cache' = Ok entry
           /\ cache_contains cache' name = true
           /\ entry_name entry = name
           /\ (forall other, other <> name ->
                             cache_getitem other cache' = cache_getitem other cache)).
Proof.
  split.
  - intros cache name.
    unfold cache_getitem, cache_contains, OrderedDict.contains, get, OrderedDict.get.
    destruct (OrderedDict.lookup (_entries cache) name) as [e|];
      (split; [|split]); try (split; congruence); try congruence;
      intros entry default; split; congruence.
  - intros cache cache' name value value_type H.
    apply set_returns in H as (entry & I & N & ->).
    inversion N as [N']. exists entry. rewrite <- N'. split; [exact I|].
    unfold cache_getitem, cache_contains, OrderedDict.contains, entry_name.
    cbn [_entries]. rewrite lookup_setitem.
    repeat split; auto. intros other O. now rewrite lookup_setitem_other.
Qed.

Lemma lookup_after_insert_witness :
  cache_getitem "FOO" (after (set_ "FOO" (PyInt 0)))
  = Ok (mkEntry "FOO" (ValueWrapper (PyInt 0)) PyNone).
Proof.
  destruct (proj2 lookup_after_insert CMakeCache_init _ "FOO" (PyInt 0) PyNone eq_refl)
    as (entry & I & G & _).
  inversion I. subst entry. exact G.
Defined.

(** X8.  The length of a cache is its number of names and of arguments.  A
    [set] that returns adds one to it when the name is new and leaves it
    otherwise, an [unset] that returns takes one off, [clear] makes it
    zero, and a merge is at least as long as its first operand and at most
    as long as both together, exactly so when they share no name. *)
Theorem length_laws :
  forall cache : CMakeCache,
    (cache_len cache = List.length (names cache)
     /\ cache_len cache = List.length (args cache)
     /\ cache_len cache = List.length (cache_iter cache))
    /\ (forall name value value_type cache',
           set name value value_type cache = (Ok tt, cache') ->
           exists text,
             name = PyStr text
             /\ cache_len cache'
                = if cache_contains cache text then cache_len cache
                  else S (cache_len cache))
    /\ (forall name cache',
           unset name cache = (Ok tt, cache') ->
           S (cache_len cache') = cache_len cache)
    /\ cache_len (snd (clear cache)) = 0%nat
    /\ (forall other : CMakeCache,
           well_formed cache -> well_formed other ->
           (cache_len cache <= cache_len (cache_add cache other)
            <= cache_len cache + cache_len other)%nat
           /\ ((forall name, cache_contains cache name = true ->
                             cache_contains other name = false) ->
               cache_len (cache_add cache other)
               = (cache_len cache + cache_len other)%nat)).
Proof.
  intros cache. split; [|split; [|split; [|split]]].
  - unfold args, entries, cache_iter, OrderedDict.values.
    rewrite names_length, !length_map. auto.
  - intros name value value_type cache' H.
    apply set_returns in H as (entry & _ & -> & ->).
    exists (_name entry). split; [reflexivity|].
    unfold cache_len, cache_contains. cbn [_entries]. apply length_setitem.
  - intros name cache' H.
    destruct (cache_contains cache name) eqn:C.
    + rewrite (unset_present _ _ C) in H. inversion H.
      unfold cache_len. cbn [_entries]. now apply length_remove.
    + rewrite (unset_absent _ _ C) in H. discriminate H.
  - reflexivity.
  - intros other WF WF'.
    rewrite (add_iadd _ WF), <- !names_length.
    unfold names, cache_iadd. cbn [_entries].
    rewrite keys_update by apply WF'. rewrite length_app.
    pose proof (filter_length_le (absent (OrderedDict.keys (_entries cache)))
                  (OrderedDict.keys (_entries other))) as Le.
    split; [lia|].
    intros Disjoint. f_equal.
    rewrite forallb_filter_id; [reflexivity|].
    apply forallb_forall. intros x I. apply absent_iff. intros J.
    apply contains_keys in J. apply contains_keys in I.
    specialize (Disjoint x J). unfold cache_contains in Disjoint. congruence.
Qed.

Lemma length_laws_witness :
  cache_len (cache_add (after (set_ "A" (PyInt 1))) (after (set_ "B" (PyInt 2))))
  = 2%nat.
Proof.
  assert (WA : well_formed (after (set_ "A" (PyInt 1))))
    by (split; repeat constructor; simpl; tauto).
  assert (WB : well_formed (after (set_ "B" (PyInt 2))))
    by (split; repeat constructor; simpl; tauto).
  refine (proj2 (proj2 (proj2 (proj2 (proj2 (length_laws _)))) _ WA WB) _).
  intros name. unfold cache_contains, OrderedDict.contains.
  change (_entries (after (set_ "A" (PyInt 1))))
    with [("A", mkEntry "A" (ValueWrapper (PyInt 1)) PyNone)].
  change (_entries (after (set_ "B" (PyInt 2))))
    with [("B", mkEntry "B" (ValueWrapper (PyInt 2)) PyNone)].
  cbn [OrderedDict.lookup].
  destruct (String.eqb "A" name) eqn:E; intros H; [|discriminate H].
  apply String.eqb_eq in E. now subst name.
Defined.

(* ====================================================================== *)
(** * The algebra of merging *)

Lemma filter_twice {A : Type} (f g : A -> bool) (xs : list A) :
  filter f (filter g xs) = filter (fun x => g x && f x) xs.
Proof.
  induction xs as [|x xs IH]; simpl; [reflexivity|].
  destruct (g x); simpl; [destruct (f x)|]; now rewrite IH.
Qed.

Lemma filter_absent_self (xs : list string) : filter (absent xs) xs = [].
Proof.
  assert (H : forall ys, (forall y, In y ys -> In y xs) -> filter (absent xs) ys = []).
  { induction ys as [|y ys IH]; intros S; simpl; [reflexivity|].
    destruct (absent xs y) eqn:A.
    - apply absent_iff in A. exfalso. apply A, S. now left.
    - apply IH. intros z I. apply S. now right. }
  now apply H.
Qed.

Lemma cache_ext (a b : CMakeCache) :
  NoDup (names a) ->
  names a = names b ->
  (forall name, entry_of a name = entry_of b name) ->
  a = b.
Proof.
  destruct a as [ea], b as [eb]. unfold names, entry_of. cbn [_entries].
  intros N K L. f_equal. now apply dict_ext.
Qed.

(** X9.  On caches built through the API, merging has the empty cache as a
    unit on both sides, merging a cache with itself gives the cache, and
    merging is associative: the order of the names and the entry of every
    name are the same however three caches are grouped. *)
Theorem merge_algebra :
  forall a b c : CMakeCache,
    well_formed a -> well_formed b -> well_formed c ->
    cache_add a CMakeCache_init = a
    /\ cache_add CMakeCache_init a = a
    /\ cache_add a a = a
    /\ cache_add (cache_add a b) c = cache_add a (cache_add b c).
Proof.
  intros a b c Wa Wb Wc.
  assert (Wab : well_formed (cache_add a b))
    by (rewrite add_iadd by exact Wa; now apply well_formed_iadd).
  assert (Wbc : well_formed (cache_add b c))
    by (rewrite add_iadd by exact Wb; now apply well_formed_iadd).
  split; [|split; [|split]].
  - rewrite add_iadd by exact Wa. now destruct a.
  - rewrite add_iadd by exact well_formed_init.
    unfold cache_iadd, CMakeCache_init. cbn [_entries].
    rewrite update_empty by apply Wa. now destruct a.
  - apply cache_ext.
    + rewrite add_iadd by exact Wa. now apply well_formed_iadd.
    + rewrite add_iadd by exact Wa. unfold names, cache_iadd. cbn [_entries].
      rewrite keys_update by apply Wa.
      now rewrite filter_absent_self, app_nil_r.
    + intros name. rewrite add_iadd by exact Wa.
      unfold entry_of, cache_iadd. cbn [_entries].
      rewrite lookup_update by apply Wa.
      now destruct (OrderedDict.lookup (_entries a) name).
  - apply cache_ext.
    + rewrite add_iadd by exact Wab. now apply well_formed_iadd.
    + rewrite (add_iadd c Wab), (add_iadd (cache_add b c) Wa).
      rewrite (add_iadd b Wa), (add_iadd c Wb).
      unfold names, cache_iadd. cbn [_entries].
      rewrite !keys_update by (apply Wb || apply Wc || apply Wbc
                               || (apply NoDup_update; apply Wb)).
      rewrite filter_app, <- app_assoc. do 2 f_equal.
      rewrite filter_twice. apply filter_ext. intros x.
      rewrite absent_app, absent_filter.
      destruct (absent (OrderedDict.keys (_entries a)) x),
        (absent (OrderedDict.keys (_entries b)) x); reflexivity.
    + intros name.
      rewrite (add_iadd c Wab), (add_iadd (cache_add b c) Wa).
      rewrite (add_iadd b Wa), (add_iadd c Wb).
      unfold entry_of, cache_iadd. cbn [_entries].
      rewrite !lookup_update by (apply Wb || apply Wc
                                 || (apply NoDup_update; apply Wb)).
      now destruct (OrderedDict.lookup (_entries c) name).
Qed.

Lemma merge_algebra_witness :
  cache_add (after (set_ "A" (PyInt 1))) (after (set_ "A" (PyInt 1)))
  = after (set_ "A" (PyInt 1)).
Proof.
  assert (WA : well_formed (after (set_ "A" (PyInt 1))))
    by (split; repeat constructor; simpl; tauto).
  exact (proj1 (proj2 (proj2 (merge_algebra WA WA WA)))).
Defined.

(* ====================================================================== *)
(** * Matching text *)

Lemma after_prefix_app (prefix s : string) :
  Str.after_prefix prefix (prefix ++ s) = Some s.
Proof.
  induction prefix as [|c prefix IH]; cbn [append Str.after_prefix].
  - now destruct s.
  - now rewrite Ascii.eqb_refl.
Qed.

Lemma after_prefix_Some (prefix s rest : string) :
  Str.after_prefix prefix s = Some rest -> s = prefix ++ rest.
Proof.
  revert s. induction prefix as [|c prefix IH]; intros s; cbn [Str.after_prefix].
  - intros E. inversion E. reflexivity.
  - destruct s as [|c' s]; [discriminate|].
    destruct (Ascii.eqb c c') eqn:E; [|discriminate].
    apply Ascii.eqb_eq in E. subst c'. intros H. cbn [append].
    now rewrite (IH _ H).
Qed.

Lemma span_spec (p : ascii -> bool) (s run rest : string) :
  Str.span p s = (run, rest) ->
  s = run ++ rest /\ Py.all_chars p run = true /\ stops p rest.
Proof.
  revert run rest. induction s as [|c s IH]; intros run rest; cbn [Str.span].
  - intros E. inversion E. now repeat split.
  - destruct (p c) eqn:P.
    + destruct (Str.span p s) as [run' rest'] eqn:S. intros E. inversion E.
      subst. destruct (IH _ _ eq_refl) as (-> & A & T).
      cbn [append Py.all_chars].
      split; [reflexivity|]. split; [|exact T]. rewrite P. exact A.
    + intros E. inversion E. subst. now repeat split.
Qed.

Lemma span_app (p : ascii -> bool) (run rest : string) :
  Py.all_chars p run = true -> stops p rest ->
  Str.span p (run ++ rest) = (run, rest).
Proof.
  intros A T. induction run as [|c run IH]; cbn [append Str.span].
  - destruct rest as [|c rest]; [reflexivity|]. cbn in T.
    cbn [Str.span]. now rewrite T.
  - cbn [Py.all_chars] in A. apply andb_prop in A as [Pc A].
    now rewrite Pc, (IH A).
Qed.

Lemma rstrip_app (a b : string) :
  Str.rstrip (a ++ b)
  = match Str.rstrip b with
    | EmptyString => Str.rstrip a
    | _ => a ++ Str.rstrip b
    end.
Proof.
  induction a as [|c a IH]; cbn [append Str.rstrip].
  - now destruct (Str.rstrip b).
  - rewrite IH. destruct (Str.rstrip b) as [|d r]; [reflexivity|].
    now destruct a.
Qed.

Lemma rstrip_nospace (s : string) :
  Py.all_chars (fun c => negb (Str.isspace c)) s = true -> Str.rstrip s = s.
Proof.
  induction s as [|c s IH]; cbn [Py.all_chars Str.rstrip]; [reflexivity|].
  intros H. apply andb_prop in H as [Hc Hs]. rewrite (IH Hs).
  apply negb_true_iff in Hc. rewrite Hc. now destruct s.
Qed.

Lemma lstrip_nospace (s : string) :
  Py.all_chars (fun c => negb (Str.isspace c)) s = true -> Str.lstrip s = s.
Proof.
  destruct s as [|c s]; cbn [Py.all_chars Str.lstrip]; [reflexivity|].
  intros H. apply andb_prop in H as [Hc _].
  apply negb_true_iff in Hc. now rewrite Hc.
Qed.

Lemma all_chars_impl (p q : ascii -> bool) (s : string) :
  (forall c, p c = true -> q c = true) ->
  Py.all_chars p s = true -> Py.all_chars q s = true.
Proof.
  intros I. induction s as [|c s IH]; cbn [Py.all_chars]; [reflexivity|].
  intros H. apply andb_prop in H as [Hc Hs]. now rewrite (I _ Hc), IH.
Qed.

Lemma version_char_nospace (c : ascii) :
  version_char c = true -> negb (Str.isspace c) = true.
Proof.
  destruct c as [[] [] [] [] [] [] [] []]; vm_compute; congruence.
Qed.

Lemma append_empty (s : string) : s ++ "" = s.
Proof. induction s as [|c s IH]; cbn [append]; [reflexivity | now rewrite IH]. Qed.

Lemma version_match_iff (text v : string) :
  _VERSION_PATTERN_match text = Some v
  <-> v <> ""
      /\ Py.all_chars version_char v = true
      /\ exists tail,
          text = "cmake version " ++ v ++ tail
          /\ (tail = "" \/ exists t, tail = Str.nl ++ t).
Proof.
  unfold _VERSION_PATTERN_match. split.
  - destruct (Str.after_prefix "cmake version " text) as [rest|] eqn:P;
      [|discriminate].
    apply after_prefix_Some in P.
    destruct (Str.span version_char rest) as [run tail] eqn:S.
    apply span_spec in S as (-> & A & T).
    destruct run as [|c run]; [discriminate|].
    destruct tail as [|d tail].
    + intros E. inversion E. subst v. split; [discriminate|].
      split; [exact A|]. exists "". split; [exact P | now left].
    + destruct (Ascii.eqb d Py.newline) eqn:N; [|discriminate].
      apply Ascii.eqb_eq in N. subst d.
      intros E. inversion E. subst v. split; [discriminate|].
      split; [exact A|]. eexists. split; [exact P|]. right. now eexists.
  - intros (N & A & tail & -> & T).
    rewrite after_prefix_app, span_app; [|exact A|].
    + destruct v as [|c v]; [contradiction|].
      destruct T as [-> | [t ->]]; [reflexivity|].
      cbn [Str.nl append]. now rewrite Ascii.eqb_refl.
    + destruct T as [-> | [t ->]]; [exact I | reflexivity].
Qed.

(** X10.  [version] returns a text exactly when the output, blanks at its
    end apart, starts with [cmake version ] followed by a non-empty run of
    digits and dots that ends the text or its first line; the text is that
    run.  So the first line of the usual output gives the version with or
    without further lines, and an output with anything before
    [cmake version] or after the run on its line gives none. *)
Theorem version_reads_first_line :
  (forall output v : string,
      version output = Some v
      <-> v <> ""
          /\ Py.all_chars version_char v = true
          /\ exists tail,
              Str.rstrip output = "cmake version " ++ v ++ tail
              /\ (tail = "" \/ exists t, tail = Str.nl ++ t))
  /\ (forall v rest : string,
         v <> "" ->
         Py.all_chars version_char v = true ->
         version ("cmake version " ++ v) = Some v
         /\ version ("cmake version " ++ v ++ Str.nl ++ rest) = Some v)
  /\ (forall output : string,
         Str.after_prefix "cmake version " output = None ->
         version output = None).
Proof.
  split; [|split].
  - intros output v. apply version_match_iff.
  - intros v rest N A.
    assert (R : Str.rstrip v = v)
      by (apply rstrip_nospace;
          exact (all_chars_impl _ _ _ version_char_nospace A)).
    assert (V : forall tail,
               (tail = "" \/ exists t, tail = Str.nl ++ t) ->
               _VERSION_PATTERN_match ("cmake version " ++ v ++ tail) = Some v).
    { intros tail T. apply version_match_iff. split; [exact N|].
      split; [exact A|]. now exists tail. }
    pose proof (V "" (or_introl eq_refl)) as V0. rewrite append_empty in V0.
    unfold version. split.
    + rewrite rstrip_app, R. destruct v as [|c v]; [contradiction|].
      exact V0.
    + rewrite rstrip_app, rstrip_app.
      destruct (Str.rstrip (Str.nl ++ rest)) as [|d r] eqn:T.
      * rewrite R. destruct v as [|c v]; [contradiction|].
        exact V0.
      * destruct v as [|c v]; [contradiction|]. cbn [append].
        change (String c (v ++ String d r)) with (String c v ++ String d r).
        apply V. right. cbn [Str.nl append Str.rstrip] in T.
        destruct (Str.rstrip rest) as [|e r'].
        -- change (Str.isspace Py.newline) with true in T. discriminate T.
        -- inversion T. now eexists.
  - intros output P. unfold version.
    destruct (_VERSION_PATTERN_match (Str.rstrip output)) as [v|] eqn:M;
      [|reflexivity].
    apply version_match_iff in M as (_ & _ & tail & E & _).
    exfalso.
    assert (Q : exists x, output = "cmake version " ++ x).
    { pose proof (rstrip_app "" output) as _.
      clear P. revert E. generalize (v ++ tail). intros x E.
      assert (G : forall s r, Str.rstrip s = r -> exists t, s = r ++ t).
      { induction s as [|c s IH]; cbn [Str.rstrip]; intros r.
        - intros <-. now exists "".
        - destruct (Str.rstrip s) as [|d r'] eqn:Rs.
          + destruct (Str.isspace c); intros <-.
            * now exists (String c s).
            * destruct (IH "" eq_refl) as [t ->]. now exists t.
          + intros <-. destruct (IH _ eq_refl) as [t ->]. now exists t. }
      destruct (G _ _ E) as [t ->]. exists (x ++ t).
      clear. generalize "cmake version ". intros p.
      induction p as [|c p IH]; cbn [append]; [reflexivity | now rewrite IH]. }
    destruct Q as [x ->]. rewrite after_prefix_app in P. discriminate P.
Qed.

Lemma version_reads_first_line_witness :
  version ("cmake version 3.16.2" ++ Str.nl ++ Str.nl ++ "CMake suite") = Some "3.16.2".
Proof.
  refine (proj2 (proj1 (proj2 version_reads_first_line) "3.16.2"
                   (Str.nl ++ "CMake suite") _ eq_refl)).
  discriminate.
Defined.

(* ====================================================================== *)
(** * The version of the CMake sources *)

Lemma match_set_Some (key line group : string) :
  match_set key line = Some group ->
  digits group = true
  /\ (line = "set(CMake_VERSION_" ++ key ++ " " ++ group ++ ")"
      \/ line = "set(CMake_VERSION_" ++ key ++ " " ++ group ++ ")" ++ Str.nl).
Proof.
  unfold match_set.
  destruct (Str.after_prefix _ line) as [rest|] eqn:P; [|discriminate].
  apply after_prefix_Some in P.
  destruct (Str.span Str.isdigit rest) as [run tail] eqn:S.
  apply span_spec in S as (-> & A & _).
  destruct run as [|c run]; [discriminate|].
  destruct (String.eqb tail ")" || String.eqb tail (")" ++ Str.nl)) eqn:T;
    [|discriminate].
  intros E. inversion E. subst group. split; [exact A|].
  assert (Assoc : forall a b c d : string, (a ++ b ++ c) ++ d = a ++ b ++ c ++ d).
  { intros a b c' d. induction a as [|x a IH]; cbn [append].
    - induction b as [|y b IHb]; cbn [append]; [reflexivity | now rewrite IHb].
    - now rewrite IH. }
  rewrite Assoc in P.
  apply orb_true_iff in T as [T | T]; apply String.eqb_eq in T; subst tail;
    [left | right]; exact P.
Qed.

Lemma match_set_group (key line group : string) :
  match_set key line = Some group -> group <> "".
Proof.
  intros H. apply match_set_Some in H as [D _]. now destruct group.
Qed.

Lemma match_set_prefix (key line group : string) :
  match_set key line = Some group ->
  exists rest, line = ("set(CMake_VERSION_" ++ key ++ " ") ++ rest.
Proof.
  unfold match_set.
  destruct (Str.after_prefix _ line) as [rest|] eqn:P; [|discriminate].
  apply after_prefix_Some in P. intros _. now exists rest.
Qed.

(** A line matches at most one of the three patterns. *)
Lemma match_set_exclusive (line group : string) :
  (_CMAKE_VERSION_MAJOR_PATTERN line = Some group ->
   _CMAKE_VERSION_MINOR_PATTERN line = None
   /\ _CMAKE_VERSION_PATCH_PATTERN line = None)
  /\ (_CMAKE_VERSION_MINOR_PATTERN line = Some group ->
      _CMAKE_VERSION_MAJOR_PATTERN line = None
      /\ _CMAKE_VERSION_PATCH_PATTERN line = None)
  /\ (_CMAKE_VERSION_PATCH_PATTERN line = Some group ->
      _CMAKE_VERSION_MAJOR_PATTERN line = None
      /\ _CMAKE_VERSION_MINOR_PATTERN line = None).
Proof.
  split; [|split]; intros H; apply match_set_prefix in H as [rest ->];
    split; reflexivity.
Qed.

(** One turn of the loop, by the kind of the line. *)
Lemma scan_major (line group : string) (rest : list string) (found : components) :
  match_set "MAJOR" (Str.strip line) = Some group ->
  scan_lines (line :: rest) found
  = scan_lines rest (mkComponents (Some group) (minor found) (patch found)).
Proof.
  intros H. cbn [scan_lines]. unfold _CMAKE_VERSION_MAJOR_PATTERN. now rewrite H.
Qed.

Lemma scan_minor (line group : string) (rest : list string) (found : components) :
  match_set "MINOR" (Str.strip line) = Some group ->
  scan_lines (line :: rest) found
  = scan_lines rest (mkComponents (major found) (Some group) (patch found)).
Proof.
  intros H. cbn [scan_lines].
  destruct (proj1 (proj2 (match_set_exclusive (Str.strip line) group)) H) as [A _].
  rewrite A. unfold _CMAKE_VERSION_MINOR_PATTERN. now rewrite H.
Qed.

Lemma scan_patch (line group : string) (rest : list string) (found : components) :
  match_set "PATCH" (Str.strip line) = Some group ->
  scan_lines (line :: rest) found
  = scan_lines rest (mkComponents (major found) (minor found) (Some group)).
Proof.
  intros H. cbn [scan_lines].
  destruct (proj2 (proj2 (match_set_exclusive (Str.strip line) group)) H) as [A B].
  rewrite A, B. unfold _CMAKE_VERSION_PATCH_PATTERN. now rewrite H.
Qed.

Lemma scan_other (line : string) (rest : list string) (found : components) :
  other_line line = true ->
  scan_lines (line :: rest) found
  = if complete found then found else scan_lines rest found.
Proof.
  unfold other_line. cbn [scan_lines].
  destruct (_CMAKE_VERSION_MAJOR_PATTERN (Str.strip line)); [discriminate|].
  destruct (_CMAKE_VERSION_MINOR_PATTERN (Str.strip line)); [discriminate|].
  destruct (_CMAKE_VERSION_PATCH_PATTERN (Str.strip line)); [discriminate|].
  reflexivity.
Qed.

(** The four kinds of line. *)
Lemma line_kind (line : string) :
  (exists group, match_set "MAJOR" (Str.strip line) = Some group
                 /\ sets "MAJOR" line = true /\ sets "MINOR" line = false
                 /\ sets "PATCH" line = false /\ other_line line = false)
  \/ (exists group, match_set "MINOR" (Str.strip line) = Some group
                    /\ sets "MAJOR" line = false /\ sets "MINOR" line = true
                    /\ sets "PATCH" line = false /\ other_line line = false)
  \/ (exists group, match_set "PATCH" (Str.strip line) = Some group
                    /\ sets "MAJOR" line = false /\ sets "MINOR" line = false
                    /\ sets "PATCH" line = true /\ other_line line = false)
  \/ (other_line line = true
      /\ sets "MAJOR" line = false /\ sets "MINOR" line = false
      /\ sets "PATCH" line = false).
Proof.
  unfold sets, other_line, _CMAKE_VERSION_MAJOR_PATTERN,
    _CMAKE_VERSION_MINOR_PATTERN, _CMAKE_VERSION_PATCH_PATTERN.
  destruct (match_set "MAJOR" (Str.strip line)) as [g|] eqn:A.
  { destruct (proj1 (match_set_exclusive (Str.strip line) g) A) as [B C].
    unfold _CMAKE_VERSION_MINOR_PATTERN, _CMAKE_VERSION_PATCH_PATTERN in B, C.
    rewrite B, C. left. now exists g. }
  destruct (match_set "MINOR" (Str.strip line)) as [g|] eqn:B.
  { destruct (proj1 (proj2 (match_set_exclusive (Str.strip line) g)) B) as [_ C].
    unfold _CMAKE_VERSION_PATCH_PATTERN in C.
    rewrite C. right. left. now exists g. }
  destruct (match_set "PATCH" (Str.strip line)) as [g|] eqn:C.
  { right. right. left. now exists g. }
  right. right. right. auto.
Qed.

Lemma truthy_Some (group : string) : group <> "" -> truthy (Some group) = true.
Proof. now destruct group. Qed.

Lemma scan_truthy (lines : list string) :
  forall found,
    proper found ->
    truthy (major (scan_lines lines found)) = truthy (major found) || has "MAJOR" lines
    /\ truthy (minor (scan_lines lines found)) = truthy (minor found) || has "MINOR" lines
    /\ truthy (patch (scan_lines lines found)) = truthy (patch found) || has "PATCH" lines.
Proof.
  induction lines as [|line rest IH]; intros found P.
  - cbn. now rewrite !orb_false_r.
  - unfold has in *. cbn [existsb].
    destruct P as (P1 & P2 & P3).
    destruct (line_kind line) as [(g & M & -> & -> & -> & _)
                                 | [(g & M & -> & -> & -> & _)
                                   | [(g & M & -> & -> & -> & _)
                                     | (O & -> & -> & ->)]]].
    + rewrite (scan_major _ _ _ M).
      pose proof (match_set_group _ _ M) as G.
      destruct (IH (mkComponents (Some g) (minor found) (patch found)))
        as (I1 & I2 & I3);
        [unfold proper; cbn [major minor patch]; repeat split; congruence|].
      cbn [major minor patch] in I1, I2, I3.
      rewrite I1, I2, I3, (truthy_Some G). cbn [orb]. rewrite ?orb_true_r.
      repeat split; reflexivity.
    + rewrite (scan_minor _ _ _ M).
      pose proof (match_set_group _ _ M) as G.
      destruct (IH (mkComponents (major found) (Some g) (patch found)))
        as (I1 & I2 & I3);
        [unfold proper; cbn [major minor patch]; repeat split; congruence|].
      cbn [major minor patch] in I1, I2, I3.
      rewrite I1, I2, I3, (truthy_Some G). cbn [orb]. rewrite ?orb_true_r.
      repeat split; reflexivity.
    + rewrite (scan_patch _ _ _ M).
      pose proof (match_set_group _ _ M) as G.
      destruct (IH (mkComponents (major found) (minor found) (Some g)))
        as (I1 & I2 & I3);
        [unfold proper; cbn [major minor patch]; repeat split; congruence|].
      cbn [major minor patch] in I1, I2, I3.
      rewrite I1, I2, I3, (truthy_Some G). cbn [orb]. rewrite ?orb_true_r.
      repeat split; reflexivity.
    + rewrite (scan_other _ _ _ O). cbn [orb].
      destruct (complete found) eqn:C.
      * unfold complete in C. apply andb_prop in C as [C C3].
        apply andb_prop in C as [C1 C2]. now rewrite C1, C2, C3.
      * apply IH. unfold proper. now repeat split.
Qed.

Lemma find_result (lines : list string) :
  _find_cmake_source_version (Some lines)
  = let found := scan_lines lines nothing_found in
    if complete found
    then match major found, minor found, patch found with
         | Some a, Some b, Some c => Some (a ++ "." ++ b ++ "." ++ c)
         | _, _, _ => None
         end
    else None.
Proof.
  unfold _find_cmake_source_version, complete, nothing_found. cbv zeta.
  destruct (scan_lines lines _) as [[[|a x]|] [[|b y]|] [[|c z]|]]; reflexivity.
Qed.

(** X11.  The version of the sources is missing exactly when the version
    file is no file or has no line for one of the three components; when
    every component has a line, a version is returned. *)
Theorem source_version_missing :
  _find_cmake_source_version None = None
  /\ (forall lines : list string,
         _find_cmake_source_version (Some lines) = None
         <-> has "MAJOR" lines && has "MINOR" lines && has "PATCH" lines = false)
  /\ (forall lines : list string,
         has "MAJOR" lines && has "MINOR" lines && has "PATCH" lines = true ->
         exists text, _find_cmake_source_version (Some lines) = Some text).
Proof.
  assert (C : forall lines,
             complete (scan_lines lines nothing_found)
             = has "MAJOR" lines && has "MINOR" lines && has "PATCH" lines).
  { intros lines.
    destruct (scan_truthy lines (found := nothing_found)) as (T1 & T2 & T3).
    - repeat split; discriminate.
    - unfold complete. now rewrite T1, T2, T3. }
  assert (R : forall lines,
             _find_cmake_source_version (Some lines) = None
             <-> complete (scan_lines lines nothing_found) = false).
  { intros lines. rewrite find_result. cbv zeta.
    destruct (complete (scan_lines lines nothing_found)) eqn:E.
    - unfold complete in E. apply andb_prop in E as [E E3].
      apply andb_prop in E as [E1 E2].
      destruct (scan_lines lines nothing_found) as [[a|] [b|] [c|]];
        try discriminate. split; discriminate.
    - tauto. }
  split; [reflexivity|]. split.
  - intros lines. now rewrite R, C.
  - intros lines H. rewrite <- C in H.
    destruct (_find_cmake_source_version (Some lines)) as [text|] eqn:F.
    + now exists text.
    + apply R in F. congruence.
Qed.

Lemma source_version_missing_witness :
  exists text,
    _find_cmake_source_version
      (Some ["set(CMake_VERSION_MAJOR 3)"; "set(CMake_VERSION_MINOR 16)";
             "set(CMake_VERSION_PATCH 2)"])
    = Some text.
Proof.
  apply (proj2 (proj2 source_version_missing)). reflexivity.
Defined.

Lemma written_more (key : string) (lines lines' : list string) (x : option string) :
  (forall line, In line lines -> In line lines') ->
  written key lines x -> written key lines' x.
Proof.
  intros S. destruct x as [g|]; [|auto].
  intros (line & I & M). exists line. auto.
Qed.

Lemma scan_written (lines : list string) :
  forall (all : list string) (found : components),
    (forall line, In line lines -> In line all) ->
    written "MAJOR" all (major found) ->
    written "MINOR" all (minor found) ->
    written "PATCH" all (patch found) ->
    written "MAJOR" all (major (scan_lines lines found))
    /\ written "MINOR" all (minor (scan_lines lines found))
    /\ written "PATCH" all (patch (scan_lines lines found)).
Proof.
  induction lines as [|line rest IH]; intros all found S W1 W2 W3.
  { cbn [scan_lines]. split; [exact W1|]. split; [exact W2 | exact W3]. }
  assert (S' : forall l, In l rest -> In l all)
    by (intros l I; apply S; right; exact I).
  assert (Here : In line all) by (apply S; left; reflexivity).
  destruct (line_kind line) as [(g & M & _) | [(g & M & _) | [(g & M & _) | (O & _)]]].
  - rewrite (scan_major _ _ _ M).
    apply IH; cbn [major minor patch written];
      [exact S' | exists line; split; [exact Here | exact M] | exact W2 | exact W3].
  - rewrite (scan_minor _ _ _ M).
    apply IH; cbn [major minor patch written];
      [exact S' | exact W1 | exists line; split; [exact Here | exact M] | exact W3].
  - rewrite (scan_patch _ _ _ M).
    apply IH; cbn [major minor patch written];
      [exact S' | exact W1 | exact W2 | exists line; split; [exact Here | exact M]].
  - rewrite (scan_other _ _ _ O). destruct (complete found).
    + split; [exact W1|]. split; [exact W2 | exact W3].
    + apply IH; assumption.
Qed.

(** X12.  A version that is returned is three runs of digits joined by
    dots, and each run is the number a line of the file sets its component
    to: the line, without the blanks around it, is
    [set(CMake_VERSION_<KEY> <digits>)]. *)
Theorem source_version_components :
  forall (lines : list string) (text : string),
    _find_cmake_source_version (Some lines) = Some text ->
    exists a b c : string,
      text = a ++ "." ++ b ++ "." ++ c
      /\ (digits a = true /\ digits b = true /\ digits c = true)
      /\ (exists line, In line lines
                       /\ Str.strip line = "set(CMake_VERSION_MAJOR " ++ a ++ ")")
      /\ (exists line, In line lines
                       /\ Str.strip line = "set(CMake_VERSION_MINOR " ++ b ++ ")")
      /\ (exists line, In line lines
                       /\ Str.strip line = "set(CMake_VERSION_PATCH " ++ c ++ ")").
Proof.
  intros lines text. rewrite find_result. cbv zeta.
  destruct (scan_written lines lines nothing_found)
    as (W1 & W2 & W3); try exact I; [intros line H; exact H|].
  destruct (complete (scan_lines lines nothing_found)); [|discriminate].
  destruct (scan_lines lines nothing_found) as [[a|] [b|] [c|]]; try discriminate.
  cbn [major minor patch written] in W1, W2, W3.
  intros E. inversion E. exists a, b, c. split; [reflexivity|].
  destruct W1 as (l1 & I1 & M1), W2 as (l2 & I2 & M2), W3 as (l3 & I3 & M3).
  assert (Line : forall key line group,
             match_set key (Str.strip line) = Some group ->
             digits group = true
             /\ Str.strip line = "set(CMake_VERSION_" ++ key ++ " " ++ group ++ ")").
  { intros key line group M. apply match_set_Some in M as [D [L | L]];
      (split; [exact D|]); [exact L|].
    exfalso. revert L. unfold Str.strip.
    generalize (Str.lstrip line). intros s L.
    assert (Last : forall x y : string,
               Str.rstrip x = y ++ Str.nl -> False).
    { clear. intros x y. revert x.
      induction y as [|c y IH]; intros x.
      - destruct x as [|d x]; cbn [Str.rstrip append Str.nl]; [discriminate|].
        destruct (Str.rstrip x) as [|e r] eqn:R.
        + destruct (Str.isspace d) eqn:S; [discriminate|].
          intros E. inversion E. subst d. discriminate S.
        + intros E. inversion E.
      - destruct x as [|d x]; cbn [Str.rstrip append]; [discriminate|].
        destruct (Str.rstrip x) as [|e r] eqn:R.
        + destruct (Str.isspace d); [discriminate|].
          intros E. inversion E. now destruct y.
        + intros E. inversion E as [[E1 E2]]. apply (IH x).
          now rewrite R. }
    assert (Assoc : forall a b c d e : string,
               a ++ b ++ c ++ d ++ e = (a ++ b ++ c ++ d) ++ e).
    { clear. intros a b c d e.
      assert (A2 : forall x y z : string, x ++ y ++ z = (x ++ y) ++ z)
        by (intros x y z; induction x as [|h x IHx]; cbn [append];
            [reflexivity | now rewrite IHx]).
      now rewrite !A2. }
    rewrite (Assoc "set(CMake_VERSION_" key " " group (")" ++ Str.nl)) in L.
    assert (A2 : forall x y z : string, x ++ y ++ z = (x ++ y) ++ z)
      by (intros x y z; induction x as [|h x IHx]; cbn [append];
          [reflexivity | now rewrite IHx]).
    rewrite A2 in L. exact (Last _ _ L). }
  destruct (Line _ _ _ M1) as [D1 L1], (Line _ _ _ M2) as [D2 L2],
    (Line _ _ _ M3) as [D3 L3].
  split; [auto|]. split; [now exists l1|]. split; [now exists l2 | now exists l3].
Qed.

Lemma source_version_components_witness :
  exists a b c : string,
    "3.16.2" = a ++ "." ++ b ++ "." ++ c
    /\ digits a = true /\ digits b = true /\ digits c = true.
Proof.
  destruct (source_version_components
              ["set(CMake_VERSION_MAJOR 3)"; "set(CMake_VERSION_MINOR 16)";
               "set(CMake_VERSION_PATCH 2)"] (text := "3.16.2") eq_refl)
    as (a & b & c & E & D & _).
  now exists a, b, c.
Defined.

Lemma scan_app (pre rest : list string) :
  forall found,
    scan_lines (pre ++ rest)%list found = scan_lines rest (scan_lines pre found)
    \/ (scan_lines (pre ++ rest)%list found = scan_lines pre found
        /\ complete (scan_lines pre found) = true).
Proof.
  induction pre as [|line pre IH]; intros found; [now left|].
  rewrite <- app_comm_cons.
  destruct (line_kind line) as [(g & M & _) | [(g & M & _) | [(g & M & _) | (O & _)]]].
  - rewrite !(scan_major _ _ _ M). apply IH.
  - rewrite !(scan_minor _ _ _ M). apply IH.
  - rewrite !(scan_patch _ _ _ M). apply IH.
  - rewrite !(scan_other _ _ _ O). destruct (complete found) eqn:C.
    + right. split; [reflexivity | exact C].
    + apply IH.
Qed.

Lemma scan_block (lines : list string) :
  forall found,
    forallb (fun line => negb (other_line line)) lines = true ->
    scan_lines lines found
    = mkComponents (last_group "MAJOR" lines (major found))
        (last_group "MINOR" lines (minor found))
        (last_group "PATCH" lines (patch found)).
Proof.
  induction lines as [|line rest IH]; intros found B.
  - now destruct found.
  - cbn [forallb] in B. apply andb_prop in B as [Bl Br].
    cbn [last_group]. unfold sets in *.
    destruct (line_kind line) as [(g & M & S1 & S2 & S3 & _)
                                 | [(g & M & S1 & S2 & S3 & _)
                                   | [(g & M & S1 & S2 & S3 & _)
                                     | (O & _)]]].
    + rewrite (scan_major _ _ _ M), (IH _ Br). unfold sets in S2, S3.
      rewrite M. cbn [major minor patch].
      destruct (match_set "MINOR" (Str.strip line)); [discriminate|].
      destruct (match_set "PATCH" (Str.strip line)); [discriminate|].
      reflexivity.
    + rewrite (scan_minor _ _ _ M), (IH _ Br). unfold sets in S1, S3.
      rewrite M. cbn [major minor patch].
      destruct (match_set "MAJOR" (Str.strip line)); [discriminate|].
      destruct (match_set "PATCH" (Str.strip line)); [discriminate|].
      reflexivity.
    + rewrite (scan_patch _ _ _ M), (IH _ Br). unfold sets in S1, S2.
      rewrite M. cbn [major minor patch].
      destruct (match_set "MAJOR" (Str.strip line)); [discriminate|].
      destruct (match_set "MINOR" (Str.strip line)); [discriminate|].
      reflexivity.
    + rewrite O in Bl. discriminate Bl.
Qed.

(** X13.  Reading stops at the first line that sets no component once the
    three are set: whatever follows such a line does not change the
    result.  Up to there a later line for a component replaces an earlier
    one: in a run of lines that all set components each component has the
    number of its last line. *)
Theorem source_version_stops :
  (forall (pre post : list string) (line : string),
      complete (scan_lines pre nothing_found) = true ->
      other_line line = true ->
      _find_cmake_source_version (Some (pre ++ line :: post)%list)
      = _find_cmake_source_version (Some pre))
  /\ (forall lines : list string,
         forallb (fun line => negb (other_line line)) lines = true ->
         scan_lines lines nothing_found
         = mkComponents (last_group "MAJOR" lines None)
             (last_group "MINOR" lines None)
             (last_group "PATCH" lines None)).
Proof.
  split.
  - intros pre post line C O. rewrite !find_result. cbv zeta.
    assert (E : scan_lines (pre ++ line :: post)%list nothing_found
                = scan_lines pre nothing_found).
    { destruct (scan_app pre (line :: post) nothing_found) as [E | [E _]];
        [|exact E].
      rewrite E, (scan_other _ _ _ O). now rewrite C. }
    now rewrite E.
  - intros lines B. exact (scan_block lines nothing_found B).
Qed.

Lemma source_version_stops_witness :
  _find_cmake_source_version
    (Some ["set(CMake_VERSION_MAJOR 3)"; "set(CMake_VERSION_MINOR 16)";
           "set(CMake_VERSION_PATCH 1)"; "set(CMake_VERSION_PATCH 2)";
           "# done"; "set(CMake_VERSION_PATCH 9)"])
  = Some "3.16.2".
Proof.
  exact (proj1 source_version_stops
           ["set(CMake_VERSION_MAJOR 3)"; "set(CMake_VERSION_MINOR 16)";
            "set(CMake_VERSION_PATCH 1)"; "set(CMake_VERSION_PATCH 2)"]
           ["set(CMake_VERSION_PATCH 9)"] "# done" eq_refl eq_refl).
Defined.

(* ====================================================================== *)
(** * Presets *)

Lemma filter_all {A : Type} (f : A -> bool) (xs : list A) :
  (forall x, In x xs -> f x = true) -> filter f xs = xs.
Proof.
  intros H. apply forallb_filter_id, forallb_forall. exact H.
Qed.

Lemma absent_cons (x name : string) (xs : list string) :
  absent (x :: xs) name = negb (String.eqb name x) && absent xs name.
Proof. unfold absent. cbn [existsb]. now rewrite negb_orb. Qed.

(** The loop of [_simplify_preset], from any dictionary built so far. *)
Lemma simplify_loop (options : list (string * pyval)) :
  forall d : OrderedDict.t pyval,
    NoDup (OrderedDict.keys d) ->
    fold_left
      (fun simplified_options option =>
         let '(name, value) := option in
         let simplified_options :=
           if OrderedDict.contains simplified_options name
           then OrderedDict.remove simplified_options name
           else simplified_options in
         OrderedDict.setitem simplified_options name value)
      options d
    = (filter (fun item => absent (map fst options) (fst item)) d
         ++ keep_last options)%list.
Proof.
  induction options as [|[n v] rest IH]; intros d N.
  - cbn [fold_left map keep_last]. rewrite app_nil_r. symmetry.
    now apply filter_all.
  - cbn [fold_left].
    assert (R : (if OrderedDict.contains d n then OrderedDict.remove d n else d)
                = OrderedDict.remove d n).
    { destruct (OrderedDict.contains d n) eqn:C; [reflexivity|].
      apply contains_false in C. symmetry. now apply remove_absent. }
    rewrite R.
    assert (Gone : ~ In n (OrderedDict.keys (OrderedDict.remove d n)))
      by (apply lookup_None; now apply lookup_remove).
    rewrite (@setitem_new _ _ _ v Gone).
    rewrite IH.
    2:{ rewrite <- (@setitem_new _ _ _ v Gone).
        now apply NoDup_setitem, NoDup_remove_key. }
    rewrite filter_app, (@remove_filter _ d n N), filter_twice.
    cbn [map fst keep_last filter].
    rewrite <- app_assoc. f_equal.
    + apply filter_ext. intros [k w]. cbn [fst]. now rewrite absent_cons.
    + unfold absent at 1. now destruct (existsb (String.eqb n) (map fst rest)).
Qed.

Lemma simplify_options (preset : Preset) :
  preset_options (_simplify_preset preset) = keep_last (preset_options preset).
Proof.
  unfold _simplify_preset. cbn [preset_options].
  rewrite simplify_loop by constructor. reflexivity.
Qed.

Lemma keep_last_names (options : list (string * pyval)) (name : string) :
  In name (map fst (keep_last options)) <-> In name (map fst options).
Proof.
  induction options as [|[n v] rest IH]; [reflexivity|].
  cbn [keep_last map fst].
  destruct (existsb (String.eqb n) (map fst rest)) eqn:E.
  - rewrite IH. cbn [In]. split; [auto|].
    intros [<- | I]; [|exact I].
    apply existsb_exists in E as [x [I X]]. apply String.eqb_eq in X. now subst.
  - cbn [map fst In]. now rewrite IH.
Qed.

Lemma keep_last_NoDup (options : list (string * pyval)) :
  NoDup (map fst (keep_last options)).
Proof.
  induction options as [|[n v] rest IH]; [constructor|].
  cbn [keep_last fst].
  destruct (existsb (String.eqb n) (map fst rest)) eqn:E; [exact IH|].
  cbn [map fst]. constructor; [|exact IH].
  rewrite keep_last_names. intros I.
  apply not_true_iff_false in E. apply E, existsb_exists.
  exists n. split; [exact I | apply String.eqb_refl].
Qed.

Lemma last_value_None (options : list (string * pyval)) (name : string) :
  last_value options name = None <-> ~ In name (map fst options).
Proof.
  induction options as [|[n v] rest IH]; cbn [last_value map fst In]; [tauto|].
  destruct (last_value rest name) as [w|].
  - split; [discriminate|]. intros H. exfalso.
    assert (I : In name (map fst rest)).
    { destruct (in_dec string_dec name (map fst rest)) as [I | I]; [exact I|].
      apply IH in I. discriminate I. }
    tauto.
  - destruct (String.eqb n name) eqn:E.
    + apply String.eqb_eq in E. split; [discriminate | tauto].
    + apply String.eqb_neq in E. split; [|reflexivity].
      intros _ [H | H]; [contradiction|]. now apply (proj1 IH).
Qed.

Lemma keep_last_lookup (options : list (string * pyval)) (name : string) :
  OrderedDict.lookup (keep_last options) name = last_value options name.
Proof.
  induction options as [|[n v] rest IH]; [reflexivity|].
  cbn [keep_last fst last_value].
  destruct (existsb (String.eqb n) (map fst rest)) eqn:E.
  - rewrite IH. destruct (last_value rest name) as [w|] eqn:L; [reflexivity|].
    destruct (String.eqb n name) eqn:N; [|reflexivity].
    apply String.eqb_eq in N. subst n. exfalso.
    apply last_value_None in L. apply L.
    apply existsb_exists in E as [x [I X]]. apply String.eqb_eq in X. now subst.
  - cbn [OrderedDict.lookup]. rewrite IH.
    destruct (String.eqb n name) eqn:N.
    + apply String.eqb_eq in N. subst n.
      assert (L : last_value rest name = None).
      { apply last_value_None. intros I.
        apply not_true_iff_false in E. apply E, existsb_exists.
        exists name. split; [exact I | apply String.eqb_refl]. }
      now rewrite L.
    + now destruct (last_value rest name).
Qed.

Lemma keep_last_NoDup_id (options : list (string * pyval)) :
  NoDup (map fst options) -> keep_last options = options.
Proof.
  induction options as [|[n v] rest IH]; [reflexivity|].
  cbn [map fst keep_last]. intros N. inversion N as [|? ? Hn Hrest]. subst.
  rewrite (IH Hrest).
  destruct (existsb (String.eqb n) (map fst rest)) eqn:E; [|reflexivity].
  apply existsb_exists in E as [x [I X]]. apply String.eqb_eq in X.
  subst x. contradiction.
Qed.

Lemma keep_last_In (options : list (string * pyval)) (option : string * pyval) :
  In option (keep_last options) -> In option options.
Proof.
  induction options as [|[n v] rest IH]; [auto|].
  cbn [keep_last fst].
  destruct (existsb (String.eqb n) (map fst rest)); cbn [In]; intuition.
Qed.

(** X14.  A simplified preset has the name of the preset and, of every
    option name, only the last option, the options kept standing in the
    order they have in the preset: no name occurs twice, the names are
    those of the preset, every name has the value the preset gives it last,
    and every option kept is an option of the preset. *)
Theorem simplify_keeps_last :
  forall preset : Preset,
    let simplified := _simplify_preset preset in
    preset_name simplified = preset_name preset
    /\ preset_options simplified = keep_last (preset_options preset)
    /\ NoDup (map fst (preset_options simplified))
    /\ (forall name,
           In name (map fst (preset_options simplified))
           <-> In name (map fst (preset_options preset)))
    /\ (forall name,
           OrderedDict.lookup (preset_options simplified) name
           = last_value (preset_options preset) name)
    /\ (forall option,
           In option (preset_options simplified) ->
           In option (preset_options preset)).
Proof.
  intros preset simplified. subst simplified.
  rewrite simplify_options.
  split; [reflexivity|]. split; [reflexivity|].
  split; [apply keep_last_NoDup|]. split; [apply keep_last_names|].
  split; [apply keep_last_lookup | apply keep_last_In].
Qed.

Lemma simplify_keeps_last_witness :
  In ("a", PyStr "2")
     (preset_options (mkPreset "p" [("a", PyStr "1"); ("b", PyNone); ("a", PyStr "2")])).
Proof.
  apply (proj2 (proj2 (proj2 (proj2 (proj2
           (simplify_keeps_last
              (mkPreset "p" [("a", PyStr "1"); ("b", PyNone); ("a", PyStr "2")]))))))).
  right. left. reflexivity.
Defined.

(** X15.  Simplifying a preset twice is simplifying it once, and a preset
    in which no option name occurs twice is left as it is. *)
Theorem simplify_idempotent :
  forall preset : Preset,
    _simplify_preset (_simplify_preset preset) = _simplify_preset preset
    /\ (NoDup (map fst (preset_options preset)) ->
        _simplify_preset preset = preset).
Proof.
  assert (Fix : forall p, NoDup (map fst (preset_options p)) ->
                          _simplify_preset p = p).
  { intros [name options] N.
    pose proof (simplify_options (mkPreset name options)) as O.
    cbn [preset_options] in O, N. rewrite (keep_last_NoDup_id _ N) in O.
    unfold _simplify_preset in *. cbn [preset_name preset_options] in *.
    now rewrite O. }
  intros preset. split; [|apply Fix].
  apply Fix. rewrite simplify_options. apply keep_last_NoDup.
Qed.

Lemma simplify_idempotent_witness :
  _simplify_preset (mkPreset "p" [("a", PyStr "1"); ("b", PyNone)])
  = mkPreset "p" [("a", PyStr "1"); ("b", PyNone)].
Proof.
  apply (proj2 (simplify_idempotent _)).
  repeat constructor; simpl; intuition discriminate.
Defined.

Lemma append_assoc3 (a b c : string) : (a ++ b) ++ c = a ++ b ++ c.
Proof. induction a as [|x a IH]; cbn [append]; [reflexivity | now rewrite IH]. Qed.

Lemma format_loop (options : list (string * pyval)) :
  forall preset_str : string,
    fold_left
      (fun preset_str option =>
         let '(name, value) := option in
         match value with
         | PyNone => preset_str ++ name ++ Str.nl
         | _ => preset_str ++ name ++ "=" ++ Py.text_type value ++ Str.nl
         end)
      options preset_str
    = preset_str ++ option_lines options.
Proof.
  induction options as [|[n v] rest IH]; intros preset_str; cbn [fold_left option_lines].
  - now rewrite append_empty.
  - rewrite IH. unfold option_line. cbn [fst snd].
    destruct v; now rewrite ?append_assoc3.
Qed.

Lemma split_lines_line (line rest : string) :
  no_newline line = true ->
  split_lines (line ++ Str.nl ++ rest) = line :: split_lines rest.
Proof.
  unfold no_newline.
  induction line as [|c line IH]; cbn [append Py.all_chars Str.nl split_lines].
  - intros _. now rewrite Ascii.eqb_refl.
  - intros H. apply andb_prop in H as [Hc Hl].
    apply negb_true_iff in Hc. rewrite Hc.
    change (String Py.newline rest) with (Str.nl ++ rest).
    now rewrite (IH Hl).
Qed.

Lemma split_option_lines (options : list (string * pyval)) :
  Forall (fun option => no_newline (option_line option) = true) options ->
  split_lines (option_lines options) = (map option_line options ++ [""])%list.
Proof.
  induction 1 as [|option rest H _ IH]; cbn [option_lines map app]; [reflexivity|].
  now rewrite split_lines_line, IH.
Qed.

(** X16.  The text of a preset is its header line [[preset: NAME]]
    followed by one line per option, in the order of the options, and ends
    with a newline: an option without a value gives its name, any other
    gives [name=value].  This holds when neither the name of the preset nor
    the line of an option holds a newline. *)
Theorem format_preset_lines :
  forall preset : Preset,
    no_newline (preset_name preset) = true ->
    Forall (fun option => no_newline (option_line option) = true)
      (preset_options preset) ->
    split_lines (_format_preset preset)
    = ("[preset: " ++ preset_name preset ++ "]")%string
        :: (map option_line (preset_options preset) ++ [""])%list.
Proof.
  intros [name options]. cbn [preset_name preset_options]. intros N O.
  unfold _format_preset. cbn [preset_name preset_options].
  rewrite format_loop.
  change ("[preset: " ++ name ++ "]" ++ Str.nl)
    with ("[preset: " ++ (name ++ "]" ++ Str.nl)).
  rewrite <- (append_assoc3 name "]" Str.nl), <- (append_assoc3 "[preset: "),
    append_assoc3.
  rewrite split_lines_line.
  - now rewrite split_option_lines.
  - unfold no_newline in *. rewrite !all_chars_app, N. reflexivity.
Qed.

Lemma format_preset_lines_witness :
  split_lines (_format_preset (mkPreset "p" [("a", PyStr "1"); ("b", PyNone)]))
  = ["[preset: p]"; "a=1"; "b"; ""].
Proof.
  apply (format_preset_lines (mkPreset "p" [("a", PyStr "1"); ("b", PyNone)])).
  - reflexivity.
  - repeat constructor.
Defined.

(* ====================================================================== *)
(** * The difference of two namespaces *)

Lemma diff_step (dict_a dict_b diff : OrderedDict.t pyval) (key : string) :
  (if OrderedDict.contains dict_a key && OrderedDict.contains dict_b key then
     match OrderedDict.lookup dict_a key, OrderedDict.lookup dict_b key with
     | Some value_a, Some value_b =>
         if py_ne value_a value_b
         then OrderedDict.setitem diff key value_b
         else diff
     | _, _ => diff
     end
   else if OrderedDict.contains dict_b key then
     match OrderedDict.lookup dict_b key with
     | Some value_b => OrderedDict.setitem diff key value_b
     | None => diff
     end
   else diff)
  = match changed dict_a dict_b key with
    | Some value_b => OrderedDict.setitem diff key value_b
    | None => diff
    end.
Proof.
  unfold changed, OrderedDict.contains, py_ne.
  destruct (OrderedDict.lookup dict_a key) as [va|],
    (OrderedDict.lookup dict_b key) as [vb|]; cbn [andb]; try reflexivity.
  now destruct (Py.eq va vb).
Qed.

Lemma diff_loop (dict_a dict_b : OrderedDict.t pyval) (all_keys : list string) :
  forall (diff : OrderedDict.t pyval) (key : string),
    OrderedDict.lookup
      (fold_left
         (fun diff key =>
            match changed dict_a dict_b key with
            | Some value_b => OrderedDict.setitem diff key value_b
            | None => diff
            end)
         all_keys diff) key
    = if existsb (String.eqb key) all_keys
      then match changed dict_a dict_b key with
           | Some value_b => Some value_b
           | None => OrderedDict.lookup diff key
           end
      else OrderedDict.lookup diff key.
Proof.
  induction all_keys as [|k rest IH]; intros diff key; [reflexivity|].
  cbn [fold_left existsb]. rewrite IH.
  assert (L : OrderedDict.lookup
                match changed dict_a dict_b k with
                | Some value_b => OrderedDict.setitem diff k value_b
                | None => diff
                end key
              = if String.eqb key k
                then match changed dict_a dict_b key with
                     | Some value_b => Some value_b
                     | None => OrderedDict.lookup diff key
                     end
                else OrderedDict.lookup diff key).
  { destruct (String.eqb key k) eqn:E.
    - apply String.eqb_eq in E. subst k.
      destruct (changed dict_a dict_b key); [apply lookup_setitem | reflexivity].
    - apply String.eqb_neq in E.
      destruct (changed dict_a dict_b k); [|reflexivity].
      now apply lookup_setitem_other. }
  rewrite L.
  destruct (String.eqb key k), (existsb (String.eqb key) rest),
    (changed dict_a dict_b key); reflexivity.
Qed.

Lemma diff_fold (all_keys : list string) (dict_a dict_b : OrderedDict.t pyval) :
  _diff_namespaces all_keys dict_a dict_b
  = fold_left
      (fun diff key =>
         match changed dict_a dict_b key with
         | Some value_b => OrderedDict.setitem diff key value_b
         | None => diff
         end)
      all_keys (OrderedDict.empty pyval).
Proof.
  unfold _diff_namespaces. generalize (OrderedDict.empty pyval).
  induction all_keys as [|k rest IH]; intros diff; [reflexivity|].
  cbn [fold_left]. now rewrite diff_step, IH.
Qed.

Lemma diff_lookup (all_keys : list string) (dict_a dict_b : OrderedDict.t pyval) :
  (forall key, In key (OrderedDict.keys dict_b) -> In key all_keys) ->
  forall key,
    OrderedDict.lookup (_diff_namespaces all_keys dict_a dict_b) key
    = changed dict_a dict_b key.
Proof.
  intros Cover key. rewrite diff_fold, diff_loop. cbn [OrderedDict.lookup].
  destruct (existsb (String.eqb key) all_keys) eqn:E.
  - now destruct (changed dict_a dict_b key).
  - unfold changed.
    destruct (OrderedDict.lookup dict_b key) as [vb|] eqn:B; [|reflexivity].
    exfalso. apply not_true_iff_false in E. apply E, existsb_exists.
    exists key. split; [|apply String.eqb_refl]. apply Cover.
    destruct (in_dec string_dec key (OrderedDict.keys dict_b)) as [I | I];
      [exact I|].
    apply lookup_None in I. congruence.
Qed.

Lemma diff_NoDup (all_keys : list string) (dict_a dict_b : OrderedDict.t pyval) :
  NoDup (OrderedDict.keys (_diff_namespaces all_keys dict_a dict_b)).
Proof.
  rewrite diff_fold.
  assert (H : forall diff,
             NoDup (OrderedDict.keys diff) ->
             NoDup (OrderedDict.keys
                      (fold_left
                         (fun diff key =>
                            match changed dict_a dict_b key with
                            | Some value_b => OrderedDict.setitem diff key value_b
                            | None => diff
                            end)
                         all_keys diff))).
  { induction all_keys as [|k rest IH]; intros diff N; [exact N|].
    cbn [fold_left]. apply IH.
    destruct (changed dict_a dict_b k); [now apply NoDup_setitem | exact N]. }
  apply H. constructor.
Qed.

(** X17.  Whatever the order the keys are visited in, the difference of
    two namespaces holds under a key the value of the second namespace when
    the key is new there or its value differs from the first's, and nothing
    otherwise.  So every key of the difference is a key of the second
    namespace, a key only the first has is never reported, and no key is
    reported twice. *)
Theorem diff_reports_second :
  forall (all_keys : list string) (dict_a dict_b : OrderedDict.t pyval),
    (forall key, In key (OrderedDict.keys dict_b) -> In key all_keys) ->
    let diff := _diff_namespaces all_keys dict_a dict_b in
    (forall key,
        OrderedDict.lookup diff key
        = match OrderedDict.lookup dict_b key with
          | Some value_b =>
              match OrderedDict.lookup dict_a key with
              | Some value_a => if Py.eq value_a value_b then None else Some value_b
              | None => Some value_b
              end
          | None => None
          end)
    /\ (forall key, In key (OrderedDict.keys diff) ->
                    In key (OrderedDict.keys dict_b))
    /\ (forall key, ~ In key (OrderedDict.keys dict_b) ->
                    OrderedDict.lookup diff key = None)
    /\ NoDup (OrderedDict.keys diff).
Proof.
  intros all_keys dict_a dict_b Cover diff. subst diff.
  pose proof (@diff_lookup all_keys dict_a dict_b Cover) as L.
  split; [exact L|]. split; [|split; [|apply diff_NoDup]].
  - intros key I.
    destruct (in_dec string_dec key (OrderedDict.keys dict_b)) as [J | J];
      [exact J|].
    apply lookup_None in J. exfalso. revert I. apply lookup_None.
    rewrite L. unfold changed. now rewrite J.
  - intros key J. apply lookup_None in J. rewrite L. unfold changed.
    now rewrite J.
Qed.

Lemma diff_reports_second_witness :
  OrderedDict.lookup
    (_diff_namespaces ["x"; "y"] [("x", PyInt 1)] [("x", PyInt 2); ("y", PyNone)]) "x"
  = Some (PyInt 2).
Proof.
  refine (proj1 (@diff_reports_second ["x"; "y"]
                   [("x", PyInt 1)] [("x", PyInt 2); ("y", PyNone)] _) "x").
  simpl. tauto.
Defined.

(** X18.  Writing the difference over the first namespace gives, under
    every key of the second, the second's value or a value equal to it, and
    leaves every other key of the first as it was. *)
Theorem diff_patches_first :
  forall (all_keys : list string) (dict_a dict_b : OrderedDict.t pyval),
    (forall key, In key (OrderedDict.keys dict_b) -> In key all_keys) ->
    let patched :=
      OrderedDict.update dict_a (_diff_namespaces all_keys dict_a dict_b) in
    (forall key value_b,
        OrderedDict.lookup dict_b key = Some value_b ->
        exists value,
          OrderedDict.lookup patched key = Some value
          /\ (value = value_b \/ Py.eq value value_b = true))
    /\ (forall key,
           OrderedDict.lookup dict_b key = None ->
           OrderedDict.lookup patched key = OrderedDict.lookup dict_a key).
Proof.
  intros all_keys dict_a dict_b Cover patched. subst patched.
  pose proof (@diff_lookup all_keys dict_a dict_b Cover) as L.
  split.
  - intros key vb B.
    rewrite lookup_update by apply diff_NoDup. rewrite L. unfold changed.
    rewrite B. destruct (OrderedDict.lookup dict_a key) as [va|] eqn:A.
    + destruct (Py.eq va vb) eqn:E.
      * exists va. split; [reflexivity | now right].
      * exists vb. split; [reflexivity | now left].
    + exists vb. split; [reflexivity | now left].
  - intros key B.
    rewrite lookup_update by apply diff_NoDup. rewrite L. unfold changed.
    now rewrite B.
Qed.

Lemma diff_patches_first_witness :
  exists value,
    OrderedDict.lookup
      (OrderedDict.update [("x", PyInt 1)]
         (_diff_namespaces ["x"; "y"] [("x", PyInt 1)]
            [("x", PyBool true); ("y", PyNone)])) "x"
    = Some value
    /\ (value = PyBool true \/ Py.eq value (PyBool true) = true).
Proof.
  refine (proj1 (@diff_patches_first ["x"; "y"]
                   [("x", PyInt 1)] [("x", PyBool true); ("y", PyNone)] _)
            "x" (PyBool true) eq_refl).
  simpl. tauto.
Defined.

(* ====================================================================== *)
(** * Blanks around the lines of the version file *)

Lemma lstrip_blank (pad s : string) :
  Py.all_chars Str.isspace pad = true -> Str.lstrip (pad ++ s) = Str.lstrip s.
Proof.
  induction pad as [|c pad IH]; cbn [append Py.all_chars Str.lstrip]; [reflexivity|].
  intros H. apply andb_prop in H as [Hc Hp]. rewrite Hc. now apply IH.
Qed.

Lemma rstrip_all_blank (pad : string) :
  Py.all_chars Str.isspace pad = true -> Str.rstrip pad = "".
Proof.
  induction pad as [|c pad IH]; cbn [Py.all_chars Str.rstrip]; [reflexivity|].
  intros H. apply andb_prop in H as [Hc Hp]. now rewrite (IH Hp), Hc.
Qed.

Lemma rstrip_blank (s pad : string) :
  Py.all_chars Str.isspace pad = true -> Str.rstrip (s ++ pad) = Str.rstrip s.
Proof.
  intros H. rewrite rstrip_app, rstrip_all_blank by exact H. reflexivity.
Qed.

Lemma lstrip_app_blank (s pad : string) :
  Py.all_chars Str.isspace pad = true ->
  exists pad',
    Py.all_chars Str.isspace pad' = true
    /\ Str.lstrip (s ++ pad) = Str.lstrip s ++ pad'.
Proof.
  intros H. induction s as [|c s IH]; cbn [append Str.lstrip].
  - exists "". split; [reflexivity|].
    rewrite <- (append_empty pad) at 1. rewrite lstrip_blank by exact H.
    reflexivity.
  - destruct (Str.isspace c); [exact IH|]. now exists pad.
Qed.

Lemma strip_blank (left s right : string) :
  Py.all_chars Str.isspace left = true ->
  Py.all_chars Str.isspace right = true ->
  Str.strip (left ++ s ++ right) = Str.strip s.
Proof.
  intros L R. unfold Str.strip. rewrite lstrip_blank by exact L.
  destruct (@lstrip_app_blank s right R) as (pad' & P & ->).
  now apply rstrip_blank.
Qed.

Lemma scan_strip (f : string -> string) (lines : list string) :
  (forall line, Str.strip (f line) = Str.strip line) ->
  forall found, scan_lines (map f lines) found = scan_lines lines found.
Proof.
  intros F. induction lines as [|line rest IH]; intros found; [reflexivity|].
  cbn [map scan_lines]. rewrite F.
  destruct (_CMAKE_VERSION_MAJOR_PATTERN (Str.strip line)); [apply IH|].
  destruct (_CMAKE_VERSION_MINOR_PATTERN (Str.strip line)); [apply IH|].
  destruct (_CMAKE_VERSION_PATCH_PATTERN (Str.strip line)); [apply IH|].
  now rewrite IH.
Qed.

(** X19.  Blanks before and after a line of the version file do not change
    the version read from it. *)
Theorem source_version_ignores_blanks :
  forall (left right : string) (lines : list string),
    Py.all_chars Str.isspace left = true ->
    Py.all_chars Str.isspace right = true ->
    _find_cmake_source_version
      (Some (map (fun line => left ++ line ++ right) lines))
    = _find_cmake_source_version (Some lines).
Proof.
  intros left right lines L R. unfold _find_cmake_source_version.
  rewrite scan_strip; [reflexivity|].
  intros line. now apply strip_blank.
Qed.

Lemma source_version_ignores_blanks_witness :
  _find_cmake_source_version
    (Some (map (fun line => "  " ++ line ++ Str.nl)
             ["set(CMake_VERSION_MAJOR 3)"; "set(CMake_VERSION_MINOR 16)";
              "set(CMake_VERSION_PATCH 2)"]))
  = Some "3.16.2".
Proof.
  exact (@source_version_ignores_blanks "  " Str.nl
           ["set(CMake_VERSION_MAJOR 3)"; "set(CMake_VERSION_MINOR 16)";
            "set(CMake_VERSION_PATCH 2)"] eq_refl eq_refl).
Defined.
